(** * Procedure management of scratch-blocks: names, callers, return types

    Shallow embedding of [Blockly.Procedures] (core/procedures.js) and of
    [Blockly.WorkspaceSvg.prototype.processProcedureReturnsChanged_].

    Conventions of the embedding.
    - JavaScript strings are [string]s (code units below 256).
    - A block is a tree: the blocks plugged into it are [childBlocks_],
      each tagged with the connection it hangs on.  The identity of a live
      block ([==] on objects) is its [id]; the workspace a block belongs to
      ([block.workspace]) is passed alongside the block.
    - Calling a method an object lacks, or dereferencing [null], throws: such
      code returns an [Outcome].
    - Code that changes the workspace or talks to the host (event groups,
      toolbox refresh, block disposal) is a [Cmd]: it passes the workspace
      along and emits the host calls it makes, in order. *)

From Stdlib Require Import Ascii DecimalString.
From Stdlib Require String.
From stdpp Require Import base option list strings gmap sorting.

Set Default Proof Using "Type".

(** ** Data model *)

(** [Blockly.PROCEDURES_CALL_TYPE_STATEMENT], [.._REPORTER], [.._BOOLEAN]. *)
Inductive ReturnType := STATEMENT | REPORTER | BOOLEAN.

#[global] Instance ReturnType_eq_dec : EqDecision ReturnType.
Proof. solve_decision. Defined.

(** [Blockly.OUTPUT_SHAPE_*], the value of a block's [outputShape_]. *)
Inductive OutputShape := OUTPUT_SHAPE_HEXAGONAL | OUTPUT_SHAPE_ROUND | OUTPUT_SHAPE_SQUARE.

#[global] Instance OutputShape_eq_dec : EqDecision OutputShape.
Proof. solve_decision. Defined.

(** The block types the procedure code tests for. *)
Definition PROCEDURES_DEFINITION_BLOCK_TYPE : string := "procedures_definition".
Definition PROCEDURES_PROTOTYPE_BLOCK_TYPE : string := "procedures_prototype".
Definition PROCEDURES_CALL_BLOCK_TYPE : string := "procedures_call".
Definition PROCEDURES_RETURN_BLOCK_TYPE : string := "procedures_return".

(** A [<mutation>] element: the attributes the procedure code reads and
    writes.  [return_] is [None] when the attribute is absent. *)
Record Mutation := mkMutation {
  proccode : string;
  argumentids : string;
  argumentnames : string;
  argumentdefaults : string;
  warp : string;
  return_ : option ReturnType
}.

#[global] Instance Mutation_eq_dec : EqDecision Mutation.
Proof. solve_decision. Defined.

(** [mutation.setAttribute('return', returnType)]. *)
Definition setAttribute_return (m : Mutation) (t : ReturnType) : Mutation :=
  {| proccode := proccode m; argumentids := argumentids m;
     argumentnames := argumentnames m; argumentdefaults := argumentdefaults m;
     warp := warp m; return_ := Some t |}.

(** The text of a [return] attribute that was written from a value read off
    another element.  [setAttribute('return', value)] stores the text of
    [value]: the text of a call type, or the text "null" when [value] is the
    [null] that [getAttribute] gives for an absent attribute. *)
Inductive AttributeText := typeText (t : ReturnType) | nullText.

#[global] Instance AttributeText_eq_dec : EqDecision AttributeText.
Proof. solve_decision. Defined.

(** [element.getAttribute('return')]; [None] is [null]. *)
Definition getAttribute_return (m : Mutation) : option ReturnType := return_ m.

(** The text [setAttribute] makes of the value it is given. *)
Definition textOf (value : option ReturnType) : AttributeText :=
  match value with
  | Some t => typeText t
  | None => nullText
  end.

(** A [<mutation>] element after [setAttribute('return', value)] with such
    a value: its [return] attribute is present and holds a text. *)
Record MutationElement := mkMutationElement {
  element_proccode : string;
  element_argumentids : string;
  element_argumentnames : string;
  element_argumentdefaults : string;
  element_warp : string;
  element_return : AttributeText
}.

#[global] Instance MutationElement_eq_dec : EqDecision MutationElement.
Proof. solve_decision. Defined.

(** The tuple of [getProcedureDef]: name, parameter list, has a return value. *)
Record ProcTuple := mkProcTuple {
  tuple_name : string;
  tuple_params : list string;
  tuple_hasReturn : bool
}.

(** The connection a child block hangs on: a named input of its parent, or
    the parent's next-statement connection. *)
Inductive Conn := InputConn (name : string) | NextConn.

#[global] Instance Conn_eq_dec : EqDecision Conn.
Proof. solve_decision. Defined.

(** A block.  [mutation] is what [mutationToDom()] gives; a block carries it
    exactly when it has the procedure mix-in ([getProcCode], [getReturn]).
    [getProcedureDef] is [None] for a block without that method, and
    [renameProcedure] says whether the block has that method. *)
#[warnings="-register-all"]
Inductive Block := mkBlock {
  id : string;
  type : string;
  isInsertionMarker_ : bool;
  isInFlyout : bool;
  outputShape_ : option OutputShape;
  mutation : option Mutation;
  getProcedureDef : option ProcTuple;
  renameProcedure : bool;
  childBlocks_ : list (Conn * Block)
}.

(** [a == b] on two live blocks: the workspace keeps its blocks by id. *)
Definition same_block (a b : Block) : bool := bool_decide (id a = id b).

(** Modelled from the spec: the host's graph query "get a node's child
    nodes", [block.getChildren()]. *)
Definition getChildren (b : Block) : list Block := map snd (childBlocks_ b).

(** Modelled from the spec: the host's graph query "get a node's descendant
    nodes", [block.getDescendants()], "in depth-first, pre-order traversal":
    the block, then the descendants of each child in turn. *)
Fixpoint getDescendants (b : Block) : list Block :=
  b :: flat_map (fun cb => getDescendants (snd cb)) (childBlocks_ b).

(** Modelled from the spec: [block.getNextBlock()], the "further chained
    node beneath" a block, if any. *)
Definition getNextBlock (b : Block) : option Block :=
  snd <$> List.find (fun cb => bool_decide (fst cb = NextConn)) (childBlocks_ b).

(** Modelled from the spec: [block.getInput(name).connection.targetBlock()],
    the block plugged into the input [name]; [None] for [null]. *)
Definition inputTargetBlock (name : string) (b : Block) : option Block :=
  snd <$> List.find (fun cb => bool_decide (fst cb = InputConn name)) (childBlocks_ b).

(** ** Results of code that may throw *)

Inductive Error := TypeError | HostError.

Inductive Outcome (A : Type) := Ok (a : A) | Throw (e : Error).
Arguments Ok {A} a.
Arguments Throw {A} e.

#[global] Instance Outcome_ret : MRet Outcome := fun A a => Ok a.
#[global] Instance Outcome_bind : MBind Outcome := fun A B f m =>
  match m with Ok a => f a | Throw e => Throw e end.

(** Modelled from the spec: [block.getProcCode()] and [block.getReturn()]
    read the procCode and the cached return type of a call site or prototype,
    the latter "defaulted for plain statements".  Called without a probe they
    throw on a block without the procedure mix-in, which has no such
    method. *)
Definition getProcCode (b : Block) : Outcome string :=
  match mutation b with Some m => Ok (proccode m) | None => Throw TypeError end.

Definition getReturn (b : Block) : Outcome ReturnType :=
  match mutation b with
  | Some m => Ok (default STATEMENT (return_ m))
  | None => Throw TypeError
  end.

(** ** The host

    What the procedure code consumes from the rest of the editor and from the
    JavaScript runtime without defining it. *)
Class Host := {
  (** [Blockly.Names.equals]: equality of two names, case ignored. *)
  Names_equals : string -> string -> bool;
  (** [Blockly.scratchBlocksUtils.compareStrings]: negative, zero or
      positive. *)
  compareStrings : string -> string -> Z;
  (** [String(parseInt(digits, 10) + 1)] on a string of decimal digits. *)
  parseInt_succ : string -> string;
  (** [Blockly.Xml.domToBlock]: the block instantiated from its serialized
      form; the host may refuse. *)
  Xml_domToBlock : Block -> Outcome Block;
  (** [block.domToMutation(xml)]: what [block.mutationToDom()] gives
      afterwards; the block may refuse.  What the block makes of a [return]
      attribute that holds the text "null" is the host's business. *)
  domToMutation : Block -> MutationElement -> Outcome Mutation;
  Msg_NEW_PROCEDURE : string;
  Msg_PROCEDURES_DOCS : string;
  Msg_PROCEDURES_TO_REPORTER : string;
  Msg_PROCEDURES_TO_STATEMENT : string
}.

(** The global toggles of [Blockly.Procedures]. *)
Record Config := mkConfig {
  USER_CAN_CHANGE_CALL_TYPE : bool;
  ENFORCE_TYPES : bool;
  DEFAULT_ENABLE_RETURNS : bool
}.

(** The values the source assigns them. *)
Definition defaultConfig : Config :=
  {| USER_CAN_CHANGE_CALL_TYPE := true;
     ENFORCE_TYPES := false;
     DEFAULT_ENABLE_RETURNS := false |}.

(** The workspace fields the procedure code touches. *)
Record Workspace := mkWorkspace {
  topBlocks_ : list Block;
  procedureReturnsEnabled : bool;
  initialProcedureReturnTypes_ : option (gmap string ReturnType);
  checkProcedureReturnAfterGesture_ : bool;
  procedureReturnChangeTimeout_ : option nat
}.

(** Modelled from the spec: the host's graph query "enumerate only top-level
    (unparented) nodes", [workspace.getTopBlocks()]; the caller gets a list of
    its own, which later changes to the workspace do not alter. *)
Definition getTopBlocks (ws : Workspace) : list Block := topBlocks_ ws.

(** Modelled from the spec: [workspace.getAllBlocks()] is the host's
    "enumerate all nodes" query; here every top block followed by its
    descendants.  Only membership in the result is relied upon. *)
Definition getAllBlocks (ws : Workspace) : list Block :=
  flat_map getDescendants (getTopBlocks ws).

(** ** Strings: the regular expressions of the source *)

Definition isDigit (c : ascii) : bool :=
  let n := nat_of_ascii c in (48 <=? n)%nat && (n <=? 57)%nat.

(** What [.] does not match (below code unit 256): line feed and carriage
    return. *)
Definition isLineTerminator (c : ascii) : bool :=
  let n := nat_of_ascii c in (n =? 10)%nat || (n =? 13)%nat.

(** [[\s\xa0]]: tab, line feed, vertical tab, form feed, carriage return,
    space and no-break space. *)
Definition isSpace (c : ascii) : bool :=
  let n := nat_of_ascii c in
  ((9 <=? n)%nat && (n <=? 13)%nat) || (n =? 32)%nat || (n =? 160)%nat.

Fixpoint takeWhile {A} (p : A -> bool) (l : list A) : list A :=
  match l with
  | [] => []
  | x :: l' => if p x then x :: takeWhile p l' else []
  end.

Fixpoint dropWhile {A} (p : A -> bool) (l : list A) : list A :=
  match l with
  | [] => []
  | x :: l' => if p x then dropWhile p l' else l
  end.

(** [name.match(/^(.*?)(\d+)$/)]: the groups [r[1]] and [r[2]], or [None]
    for [null].  The lazy first group leaves the longest run of digits at the
    end of the name to the second one; there is no match when the name does
    not end in a digit or when a line terminator precedes the digits. *)
Definition match_trailing_number (name : string) : option (string * string) :=
  let cs := String.list_ascii_of_string name in
  let digits := rev (takeWhile isDigit (rev cs)) in
  let prefix := rev (dropWhile isDigit (rev cs)) in
  if bool_decide (digits = []) || existsb isLineTerminator prefix then None
  else Some (String.string_of_list_ascii prefix, String.string_of_list_ascii digits).

(** [name.replace(/^[\s\xa0]+|[\s\xa0]+$/g, '')]. *)
Definition trim (name : string) : string :=
  String.string_of_list_ascii
    (rev (dropWhile isSpace (rev (dropWhile isSpace (String.list_ascii_of_string name))))).

(** ** Name legality *)

Section Names.
Context `{Host}.

(** [Blockly.Procedures.isNameUsed]: the loop over [blocks]. *)
Fixpoint isNameUsed_loop (name : string) (blocks : list Block)
    (opt_exclude : option Block) : bool :=
  match blocks with
  | [] => true
  | b :: rest =>
      if from_option (same_block b) false opt_exclude then
        isNameUsed_loop name rest opt_exclude
      else
        match getProcedureDef b with
        | Some procName =>
            if Names_equals (tuple_name procName) name then false
            else isNameUsed_loop name rest opt_exclude
        | None => isNameUsed_loop name rest opt_exclude
        end
  end.

Definition isNameUsed (name : string) (workspace : Workspace)
    (opt_exclude : option Block) : bool :=
  isNameUsed_loop name (getAllBlocks workspace) opt_exclude.

(** [Blockly.Procedures.isLegalName_]. *)
Definition isLegalName_ (name : string) (workspace : Workspace)
    (opt_exclude : option Block) : bool :=
  negb (isNameUsed name workspace opt_exclude).

(** One turn of the loop body of [findLegalName]. *)
Definition nextName (name : string) : string :=
  match match_trailing_number name with
  | None => name +:+ "2"
  | Some (r1, r2) => r1 +:+ parseInt_succ r2
  end.

(** The [while] loop of [findLegalName].  [fuel] bounds the number of times
    the condition is tested; [None] means that it was tested that often and
    the loop went on each time. *)
Fixpoint findLegalName_loop (fuel : nat) (name : string) (block : Block)
    (workspace : Workspace) : option string :=
  match fuel with
  | O => None
  | S fuel' =>
      if isLegalName_ name workspace (Some block) then Some name
      else findLegalName_loop fuel' (nextName name) block workspace
  end.

(** [Blockly.Procedures.findLegalName(name, block)], with
    [workspace = block.workspace]. *)
Definition findLegalName (fuel : nat) (name : string) (block : Block)
    (workspace : Workspace) : option string :=
  if isInFlyout block then Some name
  else findLegalName_loop fuel name block workspace.

(** A definition other than the excluded block carries [name]. *)
Definition collides (name : string) (workspace : Workspace)
    (opt_exclude : option Block) : Prop :=
  exists b procName,
    In b (getAllBlocks workspace) /\
    from_option (same_block b) false opt_exclude = false /\
    getProcedureDef b = Some procName /\
    Names_equals (tuple_name procName) name = true.

End Names.


(** ** Commands: workspace passing, host calls, exceptions *)

(** The calls into the host that change it or that it observes. *)
Inductive HostCall :=
  | Events_setGroup (state : bool)
  | Events_fire_BlockChange (block : Block) (oldValue newValue : option Mutation)
  | Block_unplug (block : Block)
  | Block_dispose (block : Block)
  | Block_created (block : Block)
  | Block_moveBy (block : Block)
  | Block_domToMutation (block : Block) (xml : MutationElement)
  | Block_renameProcedure (block : Block) (oldName newName : string)
  | refreshToolboxSelection_
  | registerButtonCallback (key : string)
  | alert (msg : string).

(** A command runs on a workspace and gives its result (or the exception it
    threw), the workspace it leaves, and the host calls it made. *)
Definition Cmd (A : Type) : Type :=
  Workspace -> Outcome A * Workspace * list HostCall.

Definition cmd_ret {A} (a : A) : Cmd A := fun ws => (Ok a, ws, []).

Definition cmd_bind {A B} (m : Cmd A) (f : A -> Cmd B) : Cmd B := fun ws =>
  match m ws with
  | (Ok a, ws1, calls1) =>
      match f a ws1 with
      | (r, ws2, calls2) => (r, ws2, calls1 ++ calls2)
      end
  | (Throw e, ws1, calls1) => (Throw e, ws1, calls1)
  end.

Notation "x <~ m ;; k" := (cmd_bind m (fun x => k))
  (at level 100, m at next level, right associativity).
Notation "m ;;; k" := (cmd_bind m (fun _ => k))
  (at level 100, right associativity).

(** An expression that may throw, evaluated inside a command. *)
Definition eval {A} (o : Outcome A) : Cmd A := fun ws => (o, ws, []).

Definition call (c : HostCall) : Cmd unit := fun ws => (Ok tt, ws, [c]).

Definition getWorkspace : Cmd Workspace := fun ws => (Ok ws, ws, []).

Definition setWorkspace (ws' : Workspace) : Cmd unit := fun _ => (Ok tt, ws', []).

(** [try { body } finally { handler }]. *)
Definition try_finally {A} (body : Cmd A) (handler : Cmd unit) : Cmd A := fun ws =>
  match body ws with
  | (r, ws1, calls1) =>
      match handler ws1 with
      | (Ok _, ws2, calls2) => (r, ws2, calls1 ++ calls2)
      | (Throw e, ws2, calls2) => (Throw e, ws2, calls1 ++ calls2)
      end
  end.

(** [for (...) body(x)] over a list fixed when the loop starts. *)
Fixpoint forEach {A} (body : A -> Cmd unit) (l : list A) : Cmd unit :=
  match l with
  | [] => cmd_ret tt
  | x :: l' => body x ;;; forEach body l'
  end.

Definition result {A} (r : Outcome A * Workspace * list HostCall) : Outcome A := r.1.1.
Definition final {A} (r : Outcome A * Workspace * list HostCall) : Workspace := r.1.2.
Definition calls {A} (r : Outcome A * Workspace * list HostCall) : list HostCall := r.2.

Definition set_topBlocks (ws : Workspace) (l : list Block) : Workspace :=
  {| topBlocks_ := l;
     procedureReturnsEnabled := procedureReturnsEnabled ws;
     initialProcedureReturnTypes_ := initialProcedureReturnTypes_ ws;
     checkProcedureReturnAfterGesture_ := checkProcedureReturnAfterGesture_ ws;
     procedureReturnChangeTimeout_ := procedureReturnChangeTimeout_ ws |}.

(** ** Callers and definitions *)

(** The stacks [getCallers] investigates. *)
Definition investigated (topBlocks : list Block) (definitionRoot : Block)
    (allowRecursive : bool) : list Block :=
  flat_map
    (fun block =>
       if bool_decide (id block = id definitionRoot) && negb allowRecursive then []
       else getDescendants block)
    topBlocks.

(** The second loop of [getCallers]. *)
Fixpoint getCallers_loop (name : string) (allBlocks : list Block)
    : Outcome (list Block) :=
  match allBlocks with
  | [] => Ok []
  | block :: rest =>
      if bool_decide (type block = PROCEDURES_CALL_BLOCK_TYPE) then
        procCode ← getProcCode block;
        callers ← getCallers_loop name rest;
        Ok (if negb (bool_decide (procCode = "")) && bool_decide (procCode = name)
            then block :: callers else callers)
      else getCallers_loop name rest
  end.

(** [Blockly.Procedures.getCallers]. *)
Definition getCallers (name : string) (ws : Workspace) (definitionRoot : Block)
    (allowRecursive : bool) : Outcome (list Block) :=
  getCallers_loop name (investigated (getTopBlocks ws) definitionRoot allowRecursive).

(** The loop of [getDefineBlock]. *)
Fixpoint getDefineBlock_loop (procCode : string) (blocks : list Block)
    : Outcome (option Block) :=
  match blocks with
  | [] => Ok None
  | b :: rest =>
      if bool_decide (type b = PROCEDURES_DEFINITION_BLOCK_TYPE) then
        match inputTargetBlock "custom_block" b with
        | None => Throw TypeError
        | Some prototypeBlock =>
            match mutation prototypeBlock with
            | Some m =>
                if bool_decide (proccode m = procCode) then Ok (Some b)
                else getDefineBlock_loop procCode rest
            | None => getDefineBlock_loop procCode rest
            end
        end
      else getDefineBlock_loop procCode rest
  end.

(** [Blockly.Procedures.getDefineBlock]. *)
Definition getDefineBlock (procCode : string) (workspace : Workspace)
    : Outcome (option Block) :=
  getDefineBlock_loop procCode (getTopBlocks workspace).

(** [Blockly.Procedures.getPrototypeBlock]. *)
Definition getPrototypeBlock (procCode : string) (workspace : Workspace)
    : Outcome (option Block) :=
  defineBlock ← getDefineBlock procCode workspace;
  match defineBlock with
  | Some d => Ok (inputTargetBlock "custom_block" d)
  | None => Ok None
  end.

(** ** Return types *)

(** The loop of [getBlockReturnType]: [descendants] is what is left of the
    array from index [i] on, so that its second element is
    [descendants[i + 1]]. *)
Fixpoint getBlockReturnType_loop (hasSeenBooleanReturn : bool)
    (descendants : list Block) : ReturnType :=
  match descendants with
  | [] => if hasSeenBooleanReturn then BOOLEAN else STATEMENT
  | d :: rest =>
      if bool_decide (type d = PROCEDURES_RETURN_BLOCK_TYPE) then
        match rest with
        | next :: _ =>
            if bool_decide (outputShape_ next = Some OUTPUT_SHAPE_HEXAGONAL)
            then getBlockReturnType_loop true rest
            else REPORTER
        | [] => REPORTER
        end
      else getBlockReturnType_loop hasSeenBooleanReturn rest
  end.

(** [Blockly.Procedures.getBlockReturnType]. *)
Definition getBlockReturnType (block : Block) : ReturnType :=
  getBlockReturnType_loop false (getDescendants block).

(** [Blockly.Procedures.getProcedureReturnType]. *)
Definition getProcedureReturnType (procCode : string) (workspace : Workspace)
    : Outcome ReturnType :=
  defineBlock ← getDefineBlock procCode workspace;
  match defineBlock with
  | None => Ok STATEMENT
  | Some d => Ok (getBlockReturnType d)
  end.

(** The loop of [getAllProcedureReturnTypes]. *)
Fixpoint getAllProcedureReturnTypes_loop (blocks : list Block)
    (result : gmap string ReturnType) : Outcome (gmap string ReturnType) :=
  match blocks with
  | [] => Ok result
  | block :: rest =>
      if bool_decide (type block = PROCEDURES_DEFINITION_BLOCK_TYPE)
         && negb (isInsertionMarker_ block) then
        match inputTargetBlock "custom_block" block with
        | None => Throw TypeError
        | Some prototypeBlock =>
            procCode ← getProcCode prototypeBlock;
            match result !! procCode with
            | None =>
                getAllProcedureReturnTypes_loop rest
                  (<[procCode := getBlockReturnType block]> result)
            | Some _ => getAllProcedureReturnTypes_loop rest result
            end
        end
      else getAllProcedureReturnTypes_loop rest result
  end.

(** [Blockly.Procedures.getAllProcedureReturnTypes]. *)
Definition getAllProcedureReturnTypes (workspace : Workspace)
    : Outcome (gmap string ReturnType) :=
  getAllProcedureReturnTypes_loop (getTopBlocks workspace) ∅.

(** ** Structural primitives of the host *)

Definition with_children (b : Block) (cs : list (Conn * Block)) : Block :=
  {| id := id b; type := type b; isInsertionMarker_ := isInsertionMarker_ b;
     isInFlyout := isInFlyout b; outputShape_ := outputShape_ b;
     mutation := mutation b; getProcedureDef := getProcedureDef b;
     renameProcedure := renameProcedure b; childBlocks_ := cs |}.

Definition with_mutation (b : Block) (m : option Mutation) : Block :=
  {| id := id b; type := type b; isInsertionMarker_ := isInsertionMarker_ b;
     isInFlyout := isInFlyout b; outputShape_ := outputShape_ b;
     mutation := m; getProcedureDef := getProcedureDef b;
     renameProcedure := renameProcedure b; childBlocks_ := childBlocks_ b |}.

(** The block with nothing on its next connection. *)
Definition withoutNext (b : Block) : Block :=
  with_children b
    (List.filter (fun cb => negb (bool_decide (fst cb = NextConn))) (childBlocks_ b)).

(** Modelled from the spec: the tree under [b] once the host has detached
    the block [i] from it; the block that followed [i] takes its place. *)
Fixpoint detach (i : string) (b : Block) : Block :=
  with_children b
    (flat_map
       (fun cb =>
          if bool_decide (id (snd cb) = i) then
            match getNextBlock (snd cb) with
            | Some n => [(fst cb, n)]
            | None => []
            end
          else [(fst cb, detach i (snd cb))])
       (childBlocks_ b)).

(** Modelled from the spec: [block.unplug(true)] is the host's "detach node"
    primitive.  The block leaves its parent and loses the block that followed
    it; that block takes its place under the parent, or becomes a top block
    when there is no parent. *)
Definition unplugged (block : Block) (topBlocks : list Block) : list Block :=
  if existsb (same_block block) topBlocks then
    map (fun t => if same_block block t then withoutNext t else t) topBlocks
    ++ option_list (getNextBlock block)
  else map (detach (id block)) topBlocks ++ [withoutNext block].

(** Modelled from the spec: [block.dispose()] on a top block is the host's
    "destroy node" primitive: the block and all below it leave the
    workspace. *)
Definition disposed (block : Block) (topBlocks : list Block) : list Block :=
  List.filter (fun t => negb (same_block block t)) topBlocks.

(** Modelled from the spec: the tree under [b] once [domToMutation] has
    given the block [i] the mutation [m]. *)
Fixpoint mutated (i : string) (m : Mutation) (b : Block) : Block :=
  with_children
    (if bool_decide (id b = i) then with_mutation b (Some m) else b)
    (map (fun cb => (fst cb, mutated i m (snd cb))) (childBlocks_ b)).

Definition unplug (block : Block) : Cmd unit :=
  ws <~ getWorkspace ;;
  setWorkspace (set_topBlocks ws (unplugged block (topBlocks_ ws))) ;;;
  call (Block_unplug block).

Definition dispose (block : Block) : Cmd unit :=
  ws <~ getWorkspace ;;
  setWorkspace (set_topBlocks ws (disposed block (topBlocks_ ws))) ;;;
  call (Block_dispose block).

Section Procedures.
Context `{Host} (cfg : Config).

(** Modelled from the spec: [Blockly.Xml.domToBlock(xml, workspace)] is the
    host's "instantiate node from serialized form" primitive; the new block
    is a top block of the workspace. *)
Definition domToBlock (xml : Block) : Cmd Block :=
  newBlock <~ eval (Xml_domToBlock xml) ;;
  ws <~ getWorkspace ;;
  setWorkspace (set_topBlocks ws (topBlocks_ ws ++ [newBlock])) ;;;
  call (Block_created newBlock) ;;;
  cmd_ret newBlock.

(** [Blockly.Procedures.changeReturnType].  The serialized form of a block
    is the block; [xml.querySelector('mutation')] is its own mutation. *)
Definition changeReturnType (block : Block) (returnType : ReturnType) : Cmd unit :=
  unplug block ;;;
  let xml := withoutNext block in
  dispose block ;;;
  mutation <~ eval (match mutation xml with
                    | Some m => Ok m
                    | None => Throw TypeError
                    end) ;;
  let xml := with_mutation xml (Some (setAttribute_return mutation returnType)) in
  newBlock <~ domToBlock xml ;;
  call (Block_moveBy newBlock).

(** ** The reconciliation pass *)

(** The body of the loop over the top blocks. *)
Definition reconcile (initialTypes : option (gmap string ReturnType))
    (finalTypes : gmap string ReturnType) (block : Block) : Cmd unit :=
  if negb (bool_decide (type block = PROCEDURES_CALL_BLOCK_TYPE)) then cmd_ret tt
  else if isInsertionMarker_ block then cmd_ret tt
  else if bool_decide (is_Some (getNextBlock block)) then cmd_ret tt
  else
    procCode <~ eval (getProcCode block) ;;
    initial <~ eval (match initialTypes with
                     | Some i => Ok i
                     | None => Throw TypeError
                     end) ;;
    match initial !! procCode, finalTypes !! procCode with
    | Some initialType, Some actualReturnType =>
        current <~ eval (getReturn block) ;;
        if bool_decide (current <> actualReturnType)
           && (negb (USER_CAN_CHANGE_CALL_TYPE cfg)
               || bool_decide (initialType <> actualReturnType))
        then changeReturnType block actualReturnType
        else cmd_ret tt
    | _, _ => cmd_ret tt
    end.

(** The loop that decides whether the toolbox is outdated, over the
    properties of [finalTypes]. *)
Fixpoint toolboxOutdated_loop (initialTypes : option (gmap string ReturnType))
    (entries : list (string * ReturnType)) : Outcome bool :=
  match entries with
  | [] => Ok false
  | (procCode, finalType) :: rest =>
      match initialTypes with
      | None => Throw TypeError
      | Some initial =>
          match initial !! procCode with
          | Some initialType =>
              if bool_decide (initialType <> finalType) then Ok true
              else toolboxOutdated_loop initialTypes rest
          | None => toolboxOutdated_loop initialTypes rest
          end
      end
  end.

(** [Blockly.WorkspaceSvg.prototype.processProcedureReturnsChanged_]. *)
Definition processProcedureReturnsChanged_ : Cmd unit :=
  this <~ getWorkspace ;;
  let initialTypes := initialProcedureReturnTypes_ this in
  finalTypes <~ eval (getAllProcedureReturnTypes this) ;;
  setWorkspace
    {| topBlocks_ := topBlocks_ this;
       procedureReturnsEnabled := procedureReturnsEnabled this;
       initialProcedureReturnTypes_ := None;
       checkProcedureReturnAfterGesture_ := false;
       procedureReturnChangeTimeout_ := None |} ;;;
  call (Events_setGroup true) ;;;
  forEach (reconcile initialTypes finalTypes) (getTopBlocks this) ;;;
  call (Events_setGroup false) ;;;
  toolboxOutdated <~ eval (toolboxOutdated_loop initialTypes (map_to_list finalTypes)) ;;
  if toolboxOutdated : bool then call refreshToolboxSelection_ else cmd_ret tt.

(** ** Deleting a definition *)

(** [Blockly.Procedures.deleteProcedureDefCallback], with
    [definitionRoot.workspace] the workspace the command runs on. *)
Definition deleteProcedureDefCallback (procCode : string)
    (definitionRoot : Block) : Cmd bool :=
  workspace <~ getWorkspace ;;
  callers <~ eval (getCallers procCode workspace definitionRoot false) ;;
  if (0 <? length callers)%nat then cmd_ret false
  else
    call (Events_setGroup true) ;;;
    dispose definitionRoot ;;;
    call (Events_setGroup false) ;;;
    call refreshToolboxSelection_ ;;;
    cmd_ret true.

(** ** Renaming *)

(** The loop of [rename] over the blocks of the workspace. *)
Definition rename_callers (oldName legalName : string) (blocks : list Block)
    : list HostCall :=
  flat_map
    (fun b =>
       if renameProcedure b then [Block_renameProcedure b oldName legalName]
       else [])
    blocks.

(** [Blockly.Procedures.rename], on the field with source block
    [sourceBlock_] and text [text_]: the accepted name and the host calls
    made, or [None] when [findLegalName] does not return within [fuel]. *)
Definition rename (fuel : nat) (name : string) (sourceBlock_ : Block)
    (text_ : string) (workspace : Workspace) : option (string * list HostCall) :=
  let name := trim name in
  legalName ← findLegalName fuel name sourceBlock_ workspace;
  let oldName := text_ in
  if negb (bool_decide (oldName = name)) && negb (bool_decide (oldName = legalName))
  then Some (legalName, rename_callers oldName legalName (getAllBlocks workspace))
  else Some (legalName, []).

(** ** The toolbox category *)

(** The elements [flyoutCategory] builds. *)
Inductive Element :=
  | button (text callbackKey : string)
      (** [<button text=.. callbackKey=..>] *)
  | call_block (mutation : Mutation)
      (** [<block type="procedures_call" gap="16">] around the mutation *)
  | return_block.
      (** [<block type="procedures_return" gap="16">] with its text shadow *)

(** [Blockly.Procedures.allProcedureMutations]. *)
Definition allProcedureMutations (root : Workspace) : list Mutation :=
  omap
    (fun b =>
       if bool_decide (type b = PROCEDURES_PROTOTYPE_BLOCK_TYPE) then mutation b
       else None)
    (getAllBlocks root).

(** [array.sort(comparator)] is stable; one insertion step, before the
    first element that does not compare below [x]. *)
Fixpoint sort_insert (x : Mutation) (l : list Mutation) : list Mutation :=
  match l with
  | [] => [x]
  | y :: l' =>
      if (compareStrings (proccode x) (proccode y) <=? 0)%Z then x :: l
      else y :: sort_insert x l'
  end.

(** [Blockly.Procedures.sortProcedureMutations_]. *)
Definition sortProcedureMutations_ (mutations : list Mutation) : list Mutation :=
  foldr sort_insert [] mutations.

(** [Blockly.Procedures.addCreateButton_]: the button pushed on [xmlList]. *)
Definition addCreateButton_ : Cmd Element :=
  call (registerButtonCallback "CREATE_PROCEDURE") ;;;
  cmd_ret (button Msg_NEW_PROCEDURE "CREATE_PROCEDURE").

(** The loop of [flyoutCategory] over the sorted mutations: the blocks
    pushed on [xmlList]. *)
Fixpoint flyout_calls (workspace : Workspace) (mutations : list Mutation)
    : Outcome (list Element) :=
  match mutations with
  | [] => Ok []
  | mutation :: rest =>
      returnType ← getProcedureReturnType (proccode mutation) workspace;
      blocks ← flyout_calls workspace rest;
      Ok (call_block
            (if bool_decide (returnType <> STATEMENT)
             then setAttribute_return mutation returnType else mutation)
          :: blocks)
  end.

(** [Blockly.Procedures.flyoutCategory]. *)
Definition flyoutCategory : Cmd (list Element) :=
  workspace <~ getWorkspace ;;
  createButton <~ addCreateButton_ ;;
  let mutations := sortProcedureMutations_ (allProcedureMutations workspace) in
  blocks <~ eval (flyout_calls workspace mutations) ;;
  let xmlList := createButton :: blocks in
  let showReturn :=
    if DEFAULT_ENABLE_RETURNS cfg then (0 <? length mutations)%nat
    else procedureReturnsEnabled workspace in
  if showReturn
  then cmd_ret (button Msg_PROCEDURES_DOCS "OPEN_RETURN_DOCS" :: return_block :: xmlList)
  else cmd_ret xmlList.

(** ** Mutating callers and prototype *)

(** The body of the loop of [mutateCallersAndPrototype].
    [mutationToReplaceWith] is the clone of the new mutation after
    [setAttribute('return', oldMutationDom.getAttribute('return'))]. *)
Definition mutateCaller (mutation_ : Mutation) (caller : Block) : Cmd unit :=
  let oldMutationDom := mutation caller in
  old <~ eval (match oldMutationDom with
               | Some m => Ok m
               | None => Throw TypeError
               end) ;;
  let mutationToReplaceWith :=
    {| element_proccode := proccode mutation_;
       element_argumentids := argumentids mutation_;
       element_argumentnames := argumentnames mutation_;
       element_argumentdefaults := argumentdefaults mutation_;
       element_warp := warp mutation_;
       element_return := textOf (getAttribute_return old) |} in
  call (Block_domToMutation caller mutationToReplaceWith) ;;;
  newMutation <~ eval (domToMutation caller mutationToReplaceWith) ;;
  ws <~ getWorkspace ;;
  setWorkspace
    (set_topBlocks ws (map (mutated (id caller) newMutation) (topBlocks_ ws))) ;;;
  if bool_decide (old <> newMutation)
  then call (Events_fire_BlockChange caller oldMutationDom (Some newMutation))
  else cmd_ret tt.

(** [Blockly.Procedures.mutateCallersAndPrototype]. *)
Definition mutateCallersAndPrototype (name : string) (mutation_ : Mutation)
    : Cmd unit :=
  ws <~ getWorkspace ;;
  defineBlock <~ eval (getDefineBlock name ws) ;;
  prototypeBlock <~ eval (getPrototypeBlock name ws) ;;
  match defineBlock, prototypeBlock with
  | Some defineBlock, Some prototypeBlock =>
      callers <~ eval (getCallers name ws defineBlock true) ;;
      let callers := callers ++ [prototypeBlock] in
      call (Events_setGroup true) ;;;
      forEach (mutateCaller mutation_) callers ;;;
      call (Events_setGroup false)
  | _, _ => call (alert "No define block on workspace")
  end.

(** ** Changing the shape of a call by hand *)

(** The callback of the menu option of [makeChangeTypeOption]. *)
Definition changeTypeOption_callback (block : Block) (isStatement : bool)
    : Cmd unit :=
  newType <~
    (if isStatement then
       procCode <~ eval (getProcCode block) ;;
       workspace <~ getWorkspace ;;
       actualReturnType <~ eval (getProcedureReturnType procCode workspace) ;;
       cmd_ret (if bool_decide (actualReturnType = BOOLEAN)
                then actualReturnType else REPORTER)
     else cmd_ret STATEMENT) ;;
  call (Events_setGroup true) ;;;
  try_finally (changeReturnType block newType) (call (Events_setGroup false)).

(** A context menu option. *)
Record MenuOption := mkMenuOption {
  enabled : bool;
  text : string;
  callback : Cmd unit
}.

(** [Blockly.Procedures.makeChangeTypeOption]. *)
Definition makeChangeTypeOption (block : Block) : Outcome MenuOption :=
  current ← getReturn block;
  let isStatement := bool_decide (current = STATEMENT) in
  Ok {| enabled := true;
        text := if isStatement then Msg_PROCEDURES_TO_REPORTER
                else Msg_PROCEDURES_TO_STATEMENT;
        callback := changeTypeOption_callback block isStatement |}.

End Procedures.


(** ** A reference host

    Modelled from the spec: the host's "case/locale-insensitive string
    comparator and a string-equality helper honoring the same locale rules",
    here on code units below 256, and exact decimal arithmetic for the
    numeric suffix. *)

Definition toLowerCase_ascii (c : ascii) : ascii :=
  let n := nat_of_ascii c in
  if ((65 <=? n)%nat && (n <=? 90)%nat)
     || ((192 <=? n)%nat && (n <=? 222)%nat && negb (n =? 215)%nat)
  then ascii_of_nat (n + 32) else c.

Definition toLowerCase (s : string) : string :=
  String.string_of_list_ascii (map toLowerCase_ascii (String.list_ascii_of_string s)).

Definition reference_equals (name1 name2 : string) : bool :=
  bool_decide (toLowerCase name1 = toLowerCase name2).

Definition reference_compareStrings (str1 str2 : string) : Z :=
  match String.compare (toLowerCase str1) (toLowerCase str2) with
  | Lt => (-1)%Z
  | Eq => 0%Z
  | Gt => 1%Z
  end.

Definition reference_parseInt_succ (digits : string) : string :=
  match NilZero.uint_of_string digits with
  | Some u => NilZero.string_of_uint (N.to_uint (N.succ (N.of_uint u)))
  | None => "NaN"
  end.

(** The reference host's [domToMutation]: the block takes the attributes
    over; a [return] attribute whose text is no call type counts for
    nothing. *)
Definition reference_domToMutation (xml : MutationElement) : Mutation :=
  {| proccode := element_proccode xml; argumentids := element_argumentids xml;
     argumentnames := element_argumentnames xml;
     argumentdefaults := element_argumentdefaults xml;
     warp := element_warp xml;
     return_ := match element_return xml with
                | typeText t => Some t
                | nullText => None
                end |}.

Definition referenceHost : Host :=
  {| Names_equals := reference_equals;
     compareStrings := reference_compareStrings;
     parseInt_succ := reference_parseInt_succ;
     Xml_domToBlock := fun xml => Ok xml;
     domToMutation := fun _ xml => Ok (reference_domToMutation xml);
     Msg_NEW_PROCEDURE := "Make a Block";
     Msg_PROCEDURES_DOCS := "How to use return";
     Msg_PROCEDURES_TO_REPORTER := "Change To Reporter";
     Msg_PROCEDURES_TO_STATEMENT := "Change To Statement" |}.

(** A host whose [Blockly.Xml.domToBlock] throws. *)
Definition refusingHost : Host :=
  {| Names_equals := reference_equals;
     compareStrings := reference_compareStrings;
     parseInt_succ := reference_parseInt_succ;
     Xml_domToBlock := fun _ => Throw HostError;
     domToMutation := fun _ _ => Throw HostError;
     Msg_NEW_PROCEDURE := "Make a Block";
     Msg_PROCEDURES_DOCS := "How to use return";
     Msg_PROCEDURES_TO_REPORTER := "Change To Reporter";
     Msg_PROCEDURES_TO_STATEMENT := "Change To Statement" |}.

(** ** Sample blocks and workspaces *)

Definition plainBlock (i ty : string) (cs : list (Conn * Block)) : Block :=
  {| id := i; type := ty; isInsertionMarker_ := false; isInFlyout := false;
     outputShape_ := None; mutation := None; getProcedureDef := None;
     renameProcedure := false; childBlocks_ := cs |}.

Definition shapedBlock (i ty : string) (shape : OutputShape) : Block :=
  {| id := i; type := ty; isInsertionMarker_ := false; isInFlyout := false;
     outputShape_ := Some shape; mutation := None; getProcedureDef := None;
     renameProcedure := false; childBlocks_ := [] |}.

Definition sampleMutation (code : string) (ret : option ReturnType) : Mutation :=
  {| proccode := code; argumentids := "[]"; argumentnames := "[]";
     argumentdefaults := "[]"; warp := "false"; return_ := ret |}.

Definition sampleElement (code : string) (ret : AttributeText) : MutationElement :=
  {| element_proccode := code; element_argumentids := "[]";
     element_argumentnames := "[]"; element_argumentdefaults := "[]";
     element_warp := "false"; element_return := ret |}.

Definition prototypeBlock (i code : string) : Block :=
  {| id := i; type := PROCEDURES_PROTOTYPE_BLOCK_TYPE;
     isInsertionMarker_ := false; isInFlyout := false; outputShape_ := None;
     mutation := Some (sampleMutation code None); getProcedureDef := None;
     renameProcedure := false; childBlocks_ := [] |}.

(** A definition of [code] with the stack [body] under it. *)
Definition definitionBlock (i code : string) (body : option Block) : Block :=
  plainBlock i PROCEDURES_DEFINITION_BLOCK_TYPE
    ((InputConn "custom_block", prototypeBlock (i +:+ "-proto") code)
     :: match body with Some b => [(NextConn, b)] | None => [] end).

Definition callBlock (i code : string) (ret : option ReturnType) (marker : bool)
    (cs : list (Conn * Block)) : Block :=
  {| id := i; type := PROCEDURES_CALL_BLOCK_TYPE; isInsertionMarker_ := marker;
     isInFlyout := false; outputShape_ := None;
     mutation := Some (sampleMutation code ret); getProcedureDef := None;
     renameProcedure := false; childBlocks_ := cs |}.

(** [return (value)]. *)
Definition returnBlock (i : string) (value : Block) : Block :=
  plainBlock i PROCEDURES_RETURN_BLOCK_TYPE [(InputConn "VALUE", value)].

(** [if (..) then s1 else s2]. *)
Definition ifElseBlock (i : string) (s1 s2 : Block) : Block :=
  plainBlock i "control_if_else"
    [(InputConn "SUBSTACK", s1); (InputConn "SUBSTACK2", s2)].

(** A block of the classic procedure kind: it has [getProcedureDef] and
    [renameProcedure]. *)
Definition classicDefinition (i name : string) : Block :=
  {| id := i; type := "procedures_defnoreturn"; isInsertionMarker_ := false;
     isInFlyout := false; outputShape_ := None; mutation := None;
     getProcedureDef := Some {| tuple_name := name; tuple_params := [];
                                tuple_hasReturn := false |};
     renameProcedure := true; childBlocks_ := [] |}.


Definition workspaceOf (tops : list Block)
    (initial : option (gmap string ReturnType)) : Workspace :=
  {| topBlocks_ := tops; procedureReturnsEnabled := false;
     initialProcedureReturnTypes_ := initial;
     checkProcedureReturnAfterGesture_ := true;
     procedureReturnChangeTimeout_ := None |}.

(** ** The classification of return types, in the words of the
    specification *)

Definition isReturn (d : Block) : Prop := type d = PROCEDURES_RETURN_BLOCK_TYPE.

Definition isHexagonal (d : Block) : Prop :=
  outputShape_ d = Some OUTPUT_SHAPE_HEXAGONAL.

(** A return statement at index [i] of the traversal whose following node is
    not boolean-shaped, or is missing. *)
Definition nonBooleanReturnAt (descendants : list Block) (i : nat) : Prop :=
  exists d, descendants !! i = Some d /\ isReturn d /\
    forall next, descendants !! S i = Some next -> ~ isHexagonal next.

(** A return statement at index [i] followed by a boolean-shaped node. *)
Definition booleanReturnAt (descendants : list Block) (i : nat) : Prop :=
  exists d next, descendants !! i = Some d /\ isReturn d /\
    descendants !! S i = Some next /\ isHexagonal next.

(** Every top-level definition block has a prototype plugged into its
    [custom_block] input. *)
Definition definitionsHavePrototype (workspace : Workspace) : Prop :=
  forall b, In b (getTopBlocks workspace) ->
    type b = PROCEDURES_DEFINITION_BLOCK_TYPE ->
    is_Some (inputTargetBlock "custom_block" b).

(** The top block [b] defines [procCode]. *)
Definition defines (procCode : string) (b : Block) : Prop :=
  type b = PROCEDURES_DEFINITION_BLOCK_TYPE /\
  exists prototypeBlock m,
    inputTargetBlock "custom_block" b = Some prototypeBlock /\
    mutation prototypeBlock = Some m /\ proccode m = procCode.

(** The bodies of the scenarios: a literal, a boolean expression. *)
Definition literal (i : string) : Block := shapedBlock i "text" OUTPUT_SHAPE_ROUND.
Definition trueLiteral (i : string) : Block :=
  shapedBlock i "operator_not" OUTPUT_SHAPE_HEXAGONAL.

(** ** Callers, in the words of the specification *)

(** A call-site block for the procedure [name]. *)
Definition isCallerOf (name : string) (b : Block) : bool :=
  bool_decide (type b = PROCEDURES_CALL_BLOCK_TYPE) &&
  match mutation b with
  | Some m => bool_decide (proccode m = name) && negb (bool_decide (proccode m = ""))
  | None => false
  end.

(** The top-level subtrees searched: all of them, but for the one rooted at
    [definitionRoot] when recursive calls are not wanted. *)
Definition searchedStacks (topBlocks : list Block) (definitionRoot : Block)
    (allowRecursive : bool) : list Block :=
  List.filter
    (fun t => negb (bool_decide (id t = id definitionRoot) && negb allowRecursive))
    topBlocks.

(** Every call block among [blocks] has the procedure mix-in. *)
Definition callsHaveProcCode (blocks : list Block) : Prop :=
  forall b, In b blocks -> type b = PROCEDURES_CALL_BLOCK_TYPE -> is_Some (mutation b).

(** ** The toolbox category, in the words of the specification *)

(** The call-site template for a prototype mutation whose procedure has the
    inferred return type [t]. *)
Definition callTemplate (m : Mutation) (t : ReturnType) : Element :=
  call_block (if bool_decide (t = STATEMENT) then m else setAttribute_return m t).

(** [m1] does not sort after [m2]. *)
Definition procCodeLe `{Host} (m1 m2 : Mutation) : Prop :=
  (compareStrings (proccode m1) (proccode m2) <= 0)%Z.

(** A workspace with nothing on it but the flag that enables returns. *)
Definition returnsEnabledWorkspace : Workspace :=
  {| topBlocks_ := []; procedureReturnsEnabled := true;
     initialProcedureReturnTypes_ := None;
     checkProcedureReturnAfterGesture_ := false;
     procedureReturnChangeTimeout_ := None |}.

(** ** The reconciliation pass, in the words of the specification *)

(** The serialized call site with its return type patched: what
    [changeReturnType] hands to [Blockly.Xml.domToBlock]. *)
Definition patched (block : Block) (m : Mutation) (t : ReturnType) : Block :=
  with_mutation (withoutNext block) (Some (setAttribute_return m t)).

(** The top block [block] is to be rewritten to [actual]: it is a call site,
    not an insertion marker, with no block beneath it, its procCode is in
    both snapshots, its cached return type differs from the final type
    [actual], and either call shapes cannot be overridden by the user or the
    type of the definition changed between the snapshots. *)
Definition mustRewrite (cfg : Config) (initialTypes finalTypes : gmap string ReturnType)
    (block : Block) (actual : ReturnType) : Prop :=
  type block = PROCEDURES_CALL_BLOCK_TYPE /\
  isInsertionMarker_ block = false /\
  getNextBlock block = None /\
  exists procCode initialType current,
    getProcCode block = Ok procCode /\
    initialTypes !! procCode = Some initialType /\
    finalTypes !! procCode = Some actual /\
    getReturn block = Ok current /\
    current <> actual /\
    (USER_CAN_CHANGE_CALL_TYPE cfg = false \/ initialType <> actual).

(** The same as a function: the type to rewrite [block] to, if any. *)
Definition rewriteTarget (cfg : Config) (initialTypes finalTypes : gmap string ReturnType)
    (block : Block) : option ReturnType :=
  if bool_decide (type block = PROCEDURES_CALL_BLOCK_TYPE)
     && negb (isInsertionMarker_ block)
     && negb (bool_decide (is_Some (getNextBlock block)))
  then
    match mutation block with
    | Some m =>
        match initialTypes !! proccode m, finalTypes !! proccode m with
        | Some initialType, Some actual =>
            if bool_decide (default STATEMENT (return_ m) <> actual)
               && (negb (USER_CAN_CHANGE_CALL_TYPE cfg)
                   || bool_decide (initialType <> actual))
            then Some actual else None
        | _, _ => None
        end
    | None => None
    end
  else None.

(** The host calls one rewrite of [block] makes. *)
Definition rewriteCalls `{Host} (cfg : Config)
    (initialTypes finalTypes : gmap string ReturnType) (block : Block)
    : list HostCall :=
  match rewriteTarget cfg initialTypes finalTypes block, mutation block with
  | Some actual, Some m =>
      Block_unplug block :: Block_dispose block ::
      match Xml_domToBlock (patched block m actual) with
      | Ok newBlock => [Block_created newBlock; Block_moveBy newBlock]
      | Throw _ => []
      end
  | _, _ => []
  end.

(** Some procCode of both snapshots changed its type. *)
Definition typeChanged (initialTypes finalTypes : gmap string ReturnType) : Prop :=
  exists procCode initialType finalType,
    initialTypes !! procCode = Some initialType /\
    finalTypes !! procCode = Some finalType /\
    initialType <> finalType.

(** A workspace with the definition of "foo", which returns a value, a loose
    call of "foo" shaped as a statement, and a loose call of "bar"; before
    the edit "foo" was a statement. *)
Definition driftedCall : Block := callBlock "c" "foo" None false [].
Definition otherCall : Block := callBlock "o" "bar" None false [].
Definition driftedWorkspace : Workspace :=
  workspaceOf
    [definitionBlock "d" "foo" (Some (returnBlock "r" (literal "42")));
     driftedCall; otherCall]
    (Some {["foo" := STATEMENT]}).

(** The rewrite of [block], if it is due, is accepted by the host. *)
Definition rewriteSucceeds `{Host} (cfg : Config)
    (initialTypes finalTypes : gmap string ReturnType) (block : Block) : Prop :=
  forall actual,
    rewriteTarget cfg initialTypes finalTypes block = Some actual ->
    exists m newBlock,
      mutation block = Some m /\
      Xml_domToBlock (patched block m actual) = Ok newBlock.

(** The workspace as the pass leaves its bookkeeping fields. *)
Definition passStarted (ws : Workspace) : Workspace :=
  {| topBlocks_ := topBlocks_ ws;
     procedureReturnsEnabled := procedureReturnsEnabled ws;
     initialProcedureReturnTypes_ := None;
     checkProcedureReturnAfterGesture_ := false;
     procedureReturnChangeTimeout_ := None |}.

(** ** Listing the classic definitions *)

Section Listing.
Context `{Host}.

(** [Blockly.Procedures.procTupleComparator_]. *)
Definition procTupleComparator_ (ta tb : ProcTuple) : Z :=
  compareStrings (tuple_name ta) (tuple_name tb).

(** [array.sort(Blockly.Procedures.procTupleComparator_)], one insertion
    step: before the first element that does not compare below [x]. *)
Fixpoint tuple_insert (x : ProcTuple) (l : list ProcTuple) : list ProcTuple :=
  match l with
  | [] => [x]
  | y :: l' =>
      if (procTupleComparator_ x y <=? 0)%Z then x :: l
      else y :: tuple_insert x l'
  end.

Definition tuple_sort (l : list ProcTuple) : list ProcTuple :=
  foldr tuple_insert [] l.

(** The loop of [allProcedures], with the two arrays it pushes on.  A block
    whose [getProcedureDef] gives nothing is passed over like one without
    the method. *)
Fixpoint allProcedures_loop (blocks : list Block)
    (proceduresReturn proceduresNoReturn : list ProcTuple)
    : list ProcTuple * list ProcTuple :=
  match blocks with
  | [] => (proceduresNoReturn, proceduresReturn)
  | b :: rest =>
      match getProcedureDef b with
      | Some tuple =>
          if tuple_hasReturn tuple
          then allProcedures_loop rest (proceduresReturn ++ [tuple]) proceduresNoReturn
          else allProcedures_loop rest proceduresReturn (proceduresNoReturn ++ [tuple])
      | None => allProcedures_loop rest proceduresReturn proceduresNoReturn
      end
  end.

(** [Blockly.Procedures.allProcedures]: the procedures without a return
    value, then those with one. *)
Definition allProcedures (root : Workspace) : list ProcTuple * list ProcTuple :=
  let arrays := allProcedures_loop (getAllBlocks root) [] [] in
  (tuple_sort (fst arrays), tuple_sort (snd arrays)).

(** [ta] does not sort after [tb]. *)
Definition tupleLe (ta tb : ProcTuple) : Prop :=
  (procTupleComparator_ ta tb <= 0)%Z.

End Listing.

(** The tuples of the definitions of a workspace, as [getAllBlocks] lists
    their blocks. *)
Definition definedTuples (root : Workspace) : list ProcTuple :=
  omap getProcedureDef (getAllBlocks root).

(** The mutations handed to [domToMutation], in the order of the calls. *)
Definition domToMutationCalls (l : list HostCall)
    : list (Block * MutationElement) :=
  omap (fun c => match c with
                 | Block_domToMutation b xml => Some (b, xml)
                 | _ => None
                 end) l.

(** The characters of a string. *)
Definition chars (s : string) : list ascii := String.list_ascii_of_string s.

(** The fields of a workspace other than its top blocks. *)
Definition bookkeeping (ws : Workspace)
    : bool * option (gmap string ReturnType) * bool * option nat :=
  (procedureReturnsEnabled ws, initialProcedureReturnTypes_ ws,
   checkProcedureReturnAfterGesture_ ws, procedureReturnChangeTimeout_ ws).

(** The element [mutateCallersAndPrototype] hands to a caller whose own
    mutation is [old]: the new mutation, its [return] attribute set to the
    text of what the caller's own [return] attribute reads as. *)
Definition keepingReturn (mutation_ old : Mutation) : MutationElement :=
  {| element_proccode := proccode mutation_;
     element_argumentids := argumentids mutation_;
     element_argumentnames := argumentnames mutation_;
     element_argumentdefaults := argumentdefaults mutation_;
     element_warp := warp mutation_;
     element_return := textOf (getAttribute_return old) |}.

(** A workspace whose definition of "foo" returns a value, as it did before
    the edit, and whose loose call of "foo" was shaped as a statement by the
    user. *)
Definition userShapedWorkspace : Workspace :=
  workspaceOf
    [definitionBlock "d" "foo" (Some (returnBlock "r" (literal "42")));
     driftedCall]
    (Some {["foo" := REPORTER]}).

(** A workspace with the definition of "foo" and one loose call of it,
    shaped as a reporter. *)
Definition reporterCall : Block := callBlock "c" "foo" (Some REPORTER) false [].
Definition reporterCallWorkspace : Workspace :=
  workspaceOf
    [definitionBlock "d" "foo" (Some (returnBlock "r" (literal "42")));
     reporterCall]
    None.

(** The name the loop of [findLegalName] tests at its turn [turns], counted
    from zero, when it starts from [name]. *)
Fixpoint candidate `{Host} (turns : nat) (name : string) : string :=
  match turns with
  | O => name
  | S turns' => candidate turns' (nextName name)
  end.


(** * Properties *)

(** A call that does not occur in a list of calls written out in full. *)
Ltac absent_call :=
  let Hin := fresh "Hin" in
  intros Hin;
  repeat (destruct Hin as [Hin | Hin]; [discriminate Hin |]);
  destruct Hin.

(** ** Name legality *)

Section NameFacts.
Context `{Host}.

Lemma isNameUsed_loop_false name blocks opt_exclude :
  isNameUsed_loop name blocks opt_exclude = false <->
  exists b procName,
    In b blocks /\
    from_option (same_block b) false opt_exclude = false /\
    getProcedureDef b = Some procName /\
    Names_equals (tuple_name procName) name = true.
Proof.
  induction blocks as [|b rest IH]; simpl.
  - split; [discriminate | intros (? & ? & [] & _)].
  - destruct (from_option (same_block b) false opt_exclude) eqn:Hex.
    + rewrite IH. split.
      * intros (b' & p & Hin & Hrest). exists b', p. auto.
      * intros (b' & p & [<- | Hin] & Hne & Hrest); [congruence |].
        exists b', p. auto.
    + destruct (getProcedureDef b) as [procName|] eqn:Hdef.
      * destruct (Names_equals (tuple_name procName) name) eqn:Heq.
        -- split; [intros _ | reflexivity]. exists b, procName. auto.
        -- rewrite IH. split.
           ++ intros (b' & p & Hin & Hrest). exists b', p. auto.
           ++ intros (b' & p & [<- | Hin] & Hne & Hd & Hn); [congruence |].
              exists b', p. auto.
      * rewrite IH. split.
        -- intros (b' & p & Hin & Hrest). exists b', p. auto.
        -- intros (b' & p & [<- | Hin] & Hne & Hd & Hn); [congruence |].
           exists b', p. auto.
Qed.

(** What [isLegalName_] computes: it answers [true] exactly when some other
    definition carries the name. *)
Lemma isLegalName__collides name workspace opt_exclude :
  isLegalName_ name workspace opt_exclude = true <->
  collides name workspace opt_exclude.
Proof.
  unfold isLegalName_, isNameUsed, collides.
  rewrite negb_true_iff. apply isNameUsed_loop_false.
Qed.

(** A block in a flyout keeps the proposed name. *)
Lemma findLegalName_flyout fuel name block workspace :
  isInFlyout block = true ->
  findLegalName fuel name block workspace = Some name.
Proof. intros Hfly. unfold findLegalName. now rewrite Hfly. Qed.

(** Whatever the loop returns passes the test that ended it. *)
Lemma findLegalName_loop_passes fuel name block workspace legalName :
  findLegalName_loop fuel name block workspace = Some legalName ->
  isLegalName_ legalName workspace (Some block) = true.
Proof.
  revert name. induction fuel as [|fuel IH]; intros name; simpl; [discriminate |].
  destruct (isLegalName_ name workspace (Some block)) eqn:Hlegal.
  - intros [= <-]. exact Hlegal.
  - apply IH.
Qed.

(** A name that passes the test is returned as it is. *)
Lemma findLegalName_loop_unchanged fuel name block workspace :
  isLegalName_ name workspace (Some block) = true ->
  findLegalName_loop (S fuel) name block workspace = Some name.
Proof. intros Hlegal. simpl. now rewrite Hlegal. Qed.

(** When no name passes the test the loop never ends. *)
Lemma findLegalName_loop_diverges fuel name block workspace :
  (forall n, isLegalName_ n workspace (Some block) = false) ->
  findLegalName_loop fuel name block workspace = None.
Proof.
  intros Hnone. revert name.
  induction fuel as [|fuel IH]; intros name; simpl; [reflexivity |].
  rewrite Hnone. apply IH.
Qed.

End NameFacts.

(** C1.  [isLegalName_] answers the opposite of what the claim (and the
    documentation of [isNameUsed]) says: in a workspace without any
    definition the name "foo" is reported illegal although nothing collides
    with it, and next to a definition called "foo" it is reported legal
    although that definition collides. *)
Theorem isLegalName__inverted :
  let empty := workspaceOf [] None in
  let taken := workspaceOf [classicDefinition "b" "foo"] None in
  (@isLegalName_ referenceHost "foo" empty None = false /\
   ~ @collides referenceHost "foo" empty None) /\
  (@isLegalName_ referenceHost "foo" taken None = true /\
   @collides referenceHost "foo" taken None).
Proof.
  simpl. repeat split.
  - intros (b & p & [] & _).
  - exists (classicDefinition "b" "foo"), {| tuple_name := "foo"; tuple_params := []; tuple_hasReturn := false |}.
    repeat split. now left.
Qed.

(** C2.  In a workspace whose only block is the one being named, the loop of
    [findLegalName] never ends, whatever the proposed name and whatever the
    host: the test it waits for can only succeed on a collision. *)
Theorem findLegalName_never_returns `{Host} fuel name :
  let block := classicDefinition "a" "foo" in
  findLegalName fuel name block (workspaceOf [block] None) = None.
Proof.
  intros block. unfold findLegalName. simpl.
  apply findLegalName_loop_diverges. intros n.
  destruct (isLegalName_ n (workspaceOf [block] None) (Some block)) eqn:Hlegal;
    [| reflexivity].
  apply isLegalName__collides in Hlegal.
  destruct Hlegal as (b & p & Hin & Hne & _).
  simpl in Hin. destruct Hin as [<- | []].
  discriminate Hne.
Qed.

(** ** Return type inference *)

Lemma nonBooleanReturnAt_cons d ds :
  (exists i, nonBooleanReturnAt (d :: ds) i) <->
  nonBooleanReturnAt (d :: ds) 0 \/ exists i, nonBooleanReturnAt ds i.
Proof.
  split.
  - intros [[|i] Hi]; [now left | right; exists i; exact Hi].
  - intros [H0 | [i Hi]]; [exists 0%nat; exact H0 | exists (S i); exact Hi].
Qed.

Lemma booleanReturnAt_cons d ds :
  (exists i, booleanReturnAt (d :: ds) i) <->
  booleanReturnAt (d :: ds) 0 \/ exists i, booleanReturnAt ds i.
Proof.
  split.
  - intros [[|i] Hi]; [now left | right; exists i; exact Hi].
  - intros [H0 | [i Hi]]; [exists 0%nat; exact H0 | exists (S i); exact Hi].
Qed.

Lemma return_at_head d ds :
  isReturn d ->
  (nonBooleanReturnAt (d :: ds) 0 <-> forall next, head ds = Some next -> ~ isHexagonal next) /\
  (booleanReturnAt (d :: ds) 0 <-> exists next, head ds = Some next /\ isHexagonal next).
Proof.
  intros Hret. unfold nonBooleanReturnAt, booleanReturnAt. simpl.
  rewrite <- !head_lookup. split; split.
  - intros (d' & _ & _ & Hnext). exact Hnext.
  - intros Hnext. exists d. auto.
  - intros (d' & next & _ & _ & Hn & Hhex). eauto.
  - intros (next & Hn & Hhex). exists d, next. auto.
Qed.

Lemma not_return_at_head d ds :
  ~ isReturn d ->
  ~ nonBooleanReturnAt (d :: ds) 0 /\ ~ booleanReturnAt (d :: ds) 0.
Proof.
  intros Hnot. split.
  - intros (d' & [= <-] & Hret & _). auto.
  - intros (d' & next & [= <-] & Hret & _). auto.
Qed.

(** The loop answers REPORTER exactly when it meets a return statement not
    followed by a boolean-shaped node. *)
Lemma getBlockReturnType_loop_REPORTER seen ds :
  getBlockReturnType_loop seen ds = REPORTER <-> exists i, nonBooleanReturnAt ds i.
Proof.
  revert seen. induction ds as [|d ds IH]; intros seen.
  - simpl. split; [destruct seen; discriminate |].
    intros [i (d & Hd & _)]. rewrite lookup_nil in Hd. discriminate.
  - rewrite nonBooleanReturnAt_cons. simpl.
    case_bool_decide as Hret.
    + destruct (return_at_head d ds Hret) as [Hnon _]. rewrite Hnon.
      destruct ds as [|next ds'].
      * split; [intros _ | reflexivity]. left. intros ? [=].
      * case_bool_decide as Hhex.
        -- rewrite IH. split; [tauto |].
           intros [Hhead | Hrest]; [| exact Hrest].
           exfalso. now apply (Hhead next).
        -- split; [intros _ | reflexivity]. left. now intros ? [= <-].
    + rewrite IH. destruct (not_return_at_head d ds Hret) as [Hnon _]. tauto.
Qed.

(** It answers STATEMENT exactly when no boolean return was seen before and
    there is no return statement left. *)
Lemma getBlockReturnType_loop_STATEMENT seen ds :
  getBlockReturnType_loop seen ds = STATEMENT <->
  seen = false /\ forall d, In d ds -> ~ isReturn d.
Proof.
  revert seen. induction ds as [|d ds IH]; intros seen.
  - simpl. destruct seen.
    + split; [discriminate | intros [[=] _]].
    + split; [| reflexivity]. intros _. split; [reflexivity | intros ? []].
  - simpl. case_bool_decide as Hret.
    + assert (Hno : ~ (seen = false /\ forall d', d = d' \/ In d' ds -> ~ isReturn d')).
      { intros [_ Hall]. exact (Hall d (or_introl eq_refl) Hret). }
      destruct ds as [|next ds']; [split; [discriminate | tauto] |].
      case_bool_decide as Hhex; [| split; [discriminate | tauto]].
      rewrite IH. split; [intros [[=] _] | tauto].
    + rewrite IH. split.
      * intros [-> Hall]. split; [reflexivity |].
        intros d' [<- | Hin]; auto.
      * intros [-> Hall]. split; [reflexivity |]. intros d' Hin. apply Hall. now right.
Qed.

(** It answers BOOLEAN exactly when every return statement left is followed
    by a boolean-shaped node and one such return was seen or is left. *)
Lemma getBlockReturnType_loop_BOOLEAN seen ds :
  getBlockReturnType_loop seen ds = BOOLEAN <->
  (~ exists i, nonBooleanReturnAt ds i) /\
  (seen = true \/ exists i, booleanReturnAt ds i).
Proof.
  revert seen. induction ds as [|d ds IH]; intros seen.
  - simpl. split.
    + destruct seen; [| discriminate]. intros _. split; [| now left].
      intros [i (d & Hd & _)]. rewrite lookup_nil in Hd. discriminate.
    + intros [_ [-> | [i (d & next & Hd & _)]]]; [reflexivity |].
      rewrite lookup_nil in Hd. discriminate.
  - rewrite nonBooleanReturnAt_cons, booleanReturnAt_cons. simpl.
    case_bool_decide as Hret.
    + destruct (return_at_head d ds Hret) as [Hnon Hbool]. rewrite Hnon, Hbool.
      destruct ds as [|next ds'].
      * split; [discriminate |]. intros [Hno _]. exfalso. apply Hno. left. intros ? [=].
      * case_bool_decide as Hhex.
        -- rewrite IH. split.
           ++ intros [Hno _]. split; [| right; left; exists next; auto].
              intros [Hhead | Hrest]; [| auto]. now apply (Hhead next).
           ++ intros [Hno _]. split; [tauto | now left].
        -- split; [discriminate |]. intros [Hno _]. exfalso. apply Hno. left.
           now intros ? [= <-].
    + rewrite IH. destruct (not_return_at_head d ds Hret) as [Hnon Hbool]. tauto.
Qed.

Lemma getDefineBlock_loop_none procCode blocks :
  (forall b, In b blocks -> type b = PROCEDURES_DEFINITION_BLOCK_TYPE ->
     is_Some (inputTargetBlock "custom_block" b)) ->
  (forall b, In b blocks -> ~ defines procCode b) ->
  getDefineBlock_loop procCode blocks = Ok None.
Proof.
  induction blocks as [|b rest IH]; intros Hwf Hno; simpl; [reflexivity |].
  assert (IH' : getDefineBlock_loop procCode rest = Ok None).
  { apply IH; intros b' Hin; [apply Hwf | apply Hno]; now right. }
  case_bool_decide as Hty; [| exact IH'].
  destruct (Hwf b (or_introl eq_refl) Hty) as [p Hp]. rewrite Hp.
  destruct (mutation p) as [m|] eqn:Hm; [| exact IH'].
  case_bool_decide as Hcode; [| exact IH'].
  exfalso. apply (Hno b (or_introl eq_refl)). split; [exact Hty |].
  exists p, m. auto.
Qed.

(** C5.  [getBlockReturnType] classifies a definition by the pre-order list
    of its descendants: REPORTER exactly when some return statement is not
    followed by a boolean-shaped node, BOOLEAN exactly when there are return
    statements and each is followed by a boolean-shaped node, STATEMENT
    exactly when there is no return statement.  The four scenarios of the
    specification come out as stated, and a procCode without a definition
    block is a STATEMENT. *)
Theorem getBlockReturnType_classifies :
  (forall block,
     let descendants := getDescendants block in
     (getBlockReturnType block = REPORTER <->
      exists i, nonBooleanReturnAt descendants i) /\
     (getBlockReturnType block = BOOLEAN <->
      (exists i, booleanReturnAt descendants i) /\
      ~ exists i, nonBooleanReturnAt descendants i) /\
     (getBlockReturnType block = STATEMENT <->
      forall d, In d descendants -> ~ isReturn d)) /\
  getBlockReturnType
    (definitionBlock "d" "f" (Some (returnBlock "r" (literal "42")))) = REPORTER /\
  getBlockReturnType (definitionBlock "d" "f" None) = STATEMENT /\
  getBlockReturnType
    (definitionBlock "d" "f" (Some (returnBlock "r" (trueLiteral "t")))) = BOOLEAN /\
  getBlockReturnType
    (definitionBlock "d" "f"
       (Some (ifElseBlock "c" (returnBlock "r1" (trueLiteral "t"))
                              (returnBlock "r2" (literal "text"))))) = REPORTER /\
  (forall procCode workspace,
     definitionsHavePrototype workspace ->
     (forall b, In b (getTopBlocks workspace) -> ~ defines procCode b) ->
     getProcedureReturnType procCode workspace = Ok STATEMENT).
Proof.
  split; [| repeat split].
  - intros block descendants. unfold getBlockReturnType. fold descendants.
    split; [| split].
    + apply getBlockReturnType_loop_REPORTER.
    + rewrite getBlockReturnType_loop_BOOLEAN. split.
      * intros [Hno [[=] | Hb]]. auto.
      * intros [Hb Hno]. auto.
    + rewrite getBlockReturnType_loop_STATEMENT. split.
      * intros [_ Hs]. exact Hs.
      * auto.
  - intros procCode workspace Hwf Hno. unfold getProcedureReturnType, getDefineBlock.
    now rewrite (getDefineBlock_loop_none _ _ Hwf Hno).
Qed.

Lemma getBlockReturnType_classifies_witness :
  getProcedureReturnType "f"
    (workspaceOf [definitionBlock "d" "g" None; callBlock "c" "f" None false []] None)
  = Ok STATEMENT.
Proof.
  apply (proj2 (proj2 (proj2 (proj2 (proj2 getBlockReturnType_classifies))))).
  - intros b [<- | [<- | []]]; intros Hty; [eexists; reflexivity | discriminate Hty].
  - intros b [<- | [<- | []]] (Hty & p & m & Hp & Hm & Hcode).
    + simpl in Hp. injection Hp as <-. simpl in Hm. injection Hm as <-.
      discriminate Hcode.
    + discriminate Hty.
Defined.

(** ** Callers *)

Lemma investigated_searchedStacks topBlocks definitionRoot allowRecursive :
  investigated topBlocks definitionRoot allowRecursive =
  flat_map getDescendants (searchedStacks topBlocks definitionRoot allowRecursive).
Proof.
  unfold investigated, searchedStacks.
  induction topBlocks as [|t rest IH]; simpl; [reflexivity |].
  rewrite IH.
  destruct (bool_decide (id t = id definitionRoot) && negb allowRecursive);
    reflexivity.
Qed.

Lemma getCallers_loop_filter name blocks :
  callsHaveProcCode blocks ->
  getCallers_loop name blocks = Ok (List.filter (isCallerOf name) blocks).
Proof.
  induction blocks as [|b rest IH]; intros Hwf; simpl; [reflexivity |].
  assert (IH' : getCallers_loop name rest = Ok (List.filter (isCallerOf name) rest)).
  { apply IH. intros b' Hin. apply Hwf. now right. }
  unfold isCallerOf at 1. case_bool_decide as Hty; simpl.
  - destruct (Hwf b (or_introl eq_refl) Hty) as [m Hm].
    unfold getProcCode. rewrite Hm. simpl. rewrite IH'. simpl.
    rewrite andb_comm. reflexivity.
  - exact IH'.
Qed.

(** C9, as amended.  [getCallers] returns, in traversal order, exactly the
    call blocks whose procCode is the given one and is not empty, among the
    descendants of the top-level subtrees searched; insertion markers are
    not told apart. *)
Theorem getCallers_exactly name ws definitionRoot allowRecursive :
  let searched :=
    flat_map getDescendants
      (searchedStacks (getTopBlocks ws) definitionRoot allowRecursive) in
  callsHaveProcCode searched ->
  getCallers name ws definitionRoot allowRecursive =
  Ok (List.filter (isCallerOf name) searched).
Proof.
  intros searched Hwf. unfold getCallers.
  rewrite investigated_searchedStacks. now apply getCallers_loop_filter.
Qed.

Lemma getCallers_exactly_witness :
  let root := definitionBlock "d" "f"
                (Some (callBlock "rec" "f" None false [])) in
  let ws := workspaceOf
              [root; callBlock "c1" "f" None false [(NextConn, callBlock "c2" "g" None false [])]]
              None in
  getCallers "f" ws root false =
  Ok [callBlock "c1" "f" None false [(NextConn, callBlock "c2" "g" None false [])]].
Proof.
  intros root ws.
  apply (getCallers_exactly "f" ws root false).
  intros b Hin _. simpl in Hin.
  destruct Hin as [<- | [<- | []]]; eexists; reflexivity.
Defined.

(** C9, as stated, fails: a call block that is an insertion marker is
    returned like any other. *)
Lemma getCallers_returns_insertion_marker :
  let marker := callBlock "m" "f" None true [] in
  getCallers "f" (workspaceOf [marker] None) (definitionBlock "d" "f" None) false
  = Ok [marker] /\
  isInsertionMarker_ marker = true.
Proof. split; reflexivity. Qed.

(** ** Deleting a definition *)

(** C6.  With callers left (recursive ones not counted) nothing happens and
    the answer is [false]; without, the definition root leaves the top blocks
    inside one event group, the toolbox is refreshed, and the answer is
    [true]. *)
Theorem deleteProcedureDefCallback_spec procCode definitionRoot ws callers :
  getCallers procCode ws definitionRoot false = Ok callers ->
  (callers <> [] ->
   deleteProcedureDefCallback procCode definitionRoot ws = (Ok false, ws, [])) /\
  (callers = [] ->
   let run := deleteProcedureDefCallback procCode definitionRoot ws in
   result run = Ok true /\
   calls run = [Events_setGroup true; Block_dispose definitionRoot;
                Events_setGroup false; refreshToolboxSelection_] /\
   forall b, In b (topBlocks_ (final run)) <->
             In b (topBlocks_ ws) /\ id b <> id definitionRoot).
Proof.
  intros Hcallers. unfold deleteProcedureDefCallback, cmd_bind, getWorkspace, eval.
  rewrite Hcallers. split.
  - intros Hne. destruct callers; [congruence | reflexivity].
  - intros ->. simpl. split; [reflexivity | split; [reflexivity |]].
    intros b. unfold disposed, same_block.
    rewrite filter_In, negb_true_iff, bool_decide_eq_false.
    split; intros [Hin Hne]; (split; [exact Hin | congruence]).
Qed.

Lemma deleteProcedureDefCallback_spec_witness :
  let root := definitionBlock "d" "f" (Some (callBlock "rec" "f" None false [])) in
  let ws := workspaceOf [root; callBlock "c" "g" None false []] None in
  result (deleteProcedureDefCallback "f" root ws) = Ok true /\
  topBlocks_ (final (deleteProcedureDefCallback "f" root ws))
  = [callBlock "c" "g" None false []].
Proof.
  intros root ws.
  destruct (deleteProcedureDefCallback_spec "f" root ws [] eq_refl) as [_ Hdel].
  destruct (Hdel eq_refl) as (Hres & _ & _).
  split; [exact Hres | reflexivity].
Defined.

(** ** Renaming *)




(** Outside a flyout, when no name the loop comes to is carried by another
    definition, [rename] does not return, whatever the fuel. *)
Lemma rename_never_returns `{Host} fuel name sourceBlock_ text_ ws :
  isInFlyout sourceBlock_ = false ->
  (forall turns, ~ collides (candidate turns (trim name)) ws (Some sourceBlock_)) ->
  rename fuel name sourceBlock_ text_ ws = None.
Proof.
  intros Hfly Hnone. unfold rename, findLegalName. rewrite Hfly.
  assert (Hloop : forall n, findLegalName_loop fuel n sourceBlock_ ws = None
                            \/ exists k, collides (candidate k n) ws (Some sourceBlock_)).
  { induction fuel as [|fuel IH]; intros n; simpl; [now left |].
    destruct (isLegalName_ n ws (Some sourceBlock_)) eqn:Hlegal.
    - right. exists 0%nat. now apply isLegalName__collides.
    - destruct (IH (nextName n)) as [Hn | (k & Hk)]; [now left |].
      right. now exists (S k). }
  destruct (Hloop (trim name)) as [-> | (k & Hk)]; [reflexivity |].
  now apply Hnone in Hk.
Qed.




(** ** The toolbox category *)

Section SortFacts.
Context `{Host}.
Hypothesis compareStrings_total :
  forall a b, (0 < compareStrings a b)%Z -> (compareStrings b a <= 0)%Z.

Lemma sort_insert_HdRel a x l :
  procCodeLe a x -> HdRel procCodeLe a l -> HdRel procCodeLe a (sort_insert x l).
Proof using Type.
  intros Hax Hal. destruct l as [|y l']; simpl; [now constructor |].
  destruct (compareStrings (proccode x) (proccode y) <=? 0)%Z; constructor;
    [exact Hax | now inversion Hal].
Qed.

Lemma sort_insert_Sorted x l :
  Sorted procCodeLe l -> Sorted procCodeLe (sort_insert x l).
Proof using compareStrings_total.
  induction l as [|y l' IH]; intros Hs; simpl.
  - repeat constructor.
  - destruct (compareStrings (proccode x) (proccode y) <=? 0)%Z eqn:Hle.
    + constructor; [exact Hs |]. constructor. apply Z.leb_le. exact Hle.
    + apply Z.leb_gt in Hle. inversion Hs as [|? ? Hs' Hhd]; subst.
      constructor; [now apply IH |].
      apply sort_insert_HdRel; [| exact Hhd].
      apply compareStrings_total. exact Hle.
Qed.

Lemma sortProcedureMutations__Sorted mutations :
  Sorted procCodeLe (sortProcedureMutations_ mutations).
Proof using compareStrings_total.
  induction mutations as [|m rest IH]; simpl; [constructor |].
  now apply sort_insert_Sorted.
Qed.

(** With a transitive comparator every element sorts before all that
    follow it. *)
Lemma sortProcedureMutations__StronglySorted mutations :
  (forall a b c, (compareStrings a b <= 0)%Z -> (compareStrings b c <= 0)%Z ->
                 (compareStrings a c <= 0)%Z) ->
  StronglySorted procCodeLe (sortProcedureMutations_ mutations).
Proof using compareStrings_total.
  intros Htrans. apply Sorted_StronglySorted.
  - intros m1 m2 m3. apply Htrans.
  - apply sortProcedureMutations__Sorted.
Qed.

End SortFacts.

Section FlyoutFacts.
Context `{Host}.

Lemma sort_insert_Permutation x l : sort_insert x l ≡ₚ x :: l.
Proof.
  induction l as [|y l' IH]; simpl; [reflexivity |].
  destruct (compareStrings (proccode x) (proccode y) <=? 0)%Z; [reflexivity |].
  rewrite IH. apply Permutation_swap.
Qed.

Lemma sortProcedureMutations__Permutation mutations :
  sortProcedureMutations_ mutations ≡ₚ mutations.
Proof.
  induction mutations as [|m rest IH]; simpl; [reflexivity |].
  now rewrite sort_insert_Permutation, IH.
Qed.

Lemma flyout_calls_templates workspace mutations blocks :
  flyout_calls workspace mutations = Ok blocks ->
  Forall2
    (fun m e => exists t,
       getProcedureReturnType (proccode m) workspace = Ok t /\ e = callTemplate m t)
    mutations blocks.
Proof.
  revert blocks. induction mutations as [|m rest IH]; intros blocks; simpl.
  - intros [= <-]. constructor.
  - destruct (getProcedureReturnType (proccode m) workspace) as [t|] eqn:Ht;
      [| discriminate].
    simpl. destruct (flyout_calls workspace rest) as [bs|]; [| discriminate].
    simpl. intros [= <-]. constructor; [| now apply IH].
    exists t. split; [exact Ht |]. unfold callTemplate.
    destruct t; reflexivity.
Qed.

End FlyoutFacts.

Lemma reference_compareStrings_total a b :
  (0 < reference_compareStrings a b)%Z -> (reference_compareStrings b a <= 0)%Z.
Proof.
  unfold reference_compareStrings.
  rewrite (String.compare_antisym (toLowerCase b) (toLowerCase a)).
  destruct (String.compare (toLowerCase a) (toLowerCase b)); simpl; lia.
Qed.

(** C8, as amended.  [flyoutCategory] returns, in this order: when the
    return block is shown, the "how to use return" button and the return
    block; the "create" button; one call template per prototype block of the
    workspace, sorted by procCode with the host's comparator, each carrying
    the inferred return type of its procCode unless that is STATEMENT.  The
    return block is shown when [DEFAULT_ENABLE_RETURNS] is set and there is a
    prototype, or when it is not set and the workspace has returns
    enabled. *)
Theorem flyoutCategory_layout `{Host} cfg ws items :
  (forall a b, (0 < compareStrings a b)%Z -> (compareStrings b a <= 0)%Z) ->
  result (flyoutCategory cfg ws) = Ok items ->
  let prototypes := allProcedureMutations ws in
  let mutations := sortProcedureMutations_ prototypes in
  let showReturn :=
    if DEFAULT_ENABLE_RETURNS cfg then bool_decide (prototypes <> [])
    else procedureReturnsEnabled ws in
  exists templates,
    items =
      (if showReturn
       then [button Msg_PROCEDURES_DOCS "OPEN_RETURN_DOCS"; return_block] else [])
      ++ button Msg_NEW_PROCEDURE "CREATE_PROCEDURE" :: templates /\
    Forall2
      (fun m e => exists t,
         getProcedureReturnType (proccode m) ws = Ok t /\ e = callTemplate m t)
      mutations templates /\
    mutations ≡ₚ prototypes /\
    Sorted procCodeLe mutations.
Proof.
  intros Htotal Hrun prototypes mutations showReturn.
  unfold flyoutCategory, cmd_bind, getWorkspace, addCreateButton_, call, cmd_ret,
    eval, result in Hrun.
  simpl in Hrun. fold prototypes in Hrun. fold mutations in Hrun.
  destruct (flyout_calls ws mutations) as [blocks|] eqn:Hblocks;
    [| discriminate Hrun].
  exists blocks.
  assert (Hshow :
    (if DEFAULT_ENABLE_RETURNS cfg then (0 <? length mutations)%nat
     else procedureReturnsEnabled ws) = showReturn).
  { unfold showReturn. destruct (DEFAULT_ENABLE_RETURNS cfg); [| reflexivity].
    unfold mutations.
    rewrite (Permutation_length (sortProcedureMutations__Permutation prototypes)).
    destruct prototypes; reflexivity. }
  rewrite Hshow in Hrun. split; [| split; [| split]].
  - destruct showReturn; simpl in Hrun; now injection Hrun as <-.
  - now apply flyout_calls_templates.
  - apply sortProcedureMutations__Permutation.
  - now apply sortProcedureMutations__Sorted.
Qed.

Lemma flyoutCategory_layout_witness :
  let ws := workspaceOf [definitionBlock "d1" "b" None;
                         definitionBlock "d2" "A"
                           (Some (returnBlock "r" (literal "42")))] None in
  exists templates,
    [button "Make a Block" "CREATE_PROCEDURE";
     call_block (sampleMutation "A" (Some REPORTER));
     call_block (sampleMutation "b" None)]
    = [] ++ button "Make a Block" "CREATE_PROCEDURE" :: templates.
Proof.
  intros ws.
  destruct (@flyoutCategory_layout referenceHost defaultConfig ws _
              reference_compareStrings_total eq_refl)
    as (templates & Hitems & _).
  exists templates. exact Hitems.
Defined.

(** C8, as stated, fails.  With returns enabled on an empty workspace the
    list starts with the "how to use return" button and the return block, and
    the "create" button comes third; and with [DEFAULT_ENABLE_RETURNS] set
    but no procedure defined, the return block is not listed. *)
Lemma flyoutCategory_create_button_not_first :
  result (@flyoutCategory referenceHost defaultConfig returnsEnabledWorkspace)
  = Ok [button "How to use return" "OPEN_RETURN_DOCS"; return_block;
        button "Make a Block" "CREATE_PROCEDURE"] /\
  result (@flyoutCategory referenceHost
            {| USER_CAN_CHANGE_CALL_TYPE := true; ENFORCE_TYPES := false;
               DEFAULT_ENABLE_RETURNS := true |}
            (workspaceOf [] None))
  = Ok [button "Make a Block" "CREATE_PROCEDURE"].
Proof. split; reflexivity. Qed.

(** ** Commands *)

Lemma cmd_bind_Ok {A B} (m : Cmd A) (f : A -> Cmd B) ws b :
  result (cmd_bind m f ws) = Ok b ->
  exists a,
    result (m ws) = Ok a /\
    result (f a (final (m ws))) = Ok b /\
    calls (cmd_bind m f ws) = calls (m ws) ++ calls (f a (final (m ws))) /\
    final (cmd_bind m f ws) = final (f a (final (m ws))).
Proof.
  unfold cmd_bind, result, final, calls.
  destruct (m ws) as [[[a|e] ws1] calls1]; simpl; [| discriminate].
  destruct (f a ws1) as [[r ws2] calls2] eqn:Hf; simpl.
  intros ->. exists a. rewrite Hf. auto.
Qed.

Lemma cmd_bind_Throw {A B} (m : Cmd A) (f : A -> Cmd B) ws e :
  result (m ws) = Throw e ->
  cmd_bind m f ws = (Throw e, final (m ws), calls (m ws)).
Proof.
  unfold cmd_bind, result, final, calls.
  destruct (m ws) as [[[a|e'] ws1] calls1]; simpl; [discriminate |].
  now intros [= ->].
Qed.

(** [try ... finally] runs the handler whatever the body does. *)
Lemma try_finally_calls {A} (body : Cmd A) (c : HostCall) ws :
  calls (try_finally body (call c) ws) = calls (body ws) ++ [c].
Proof.
  unfold try_finally, call, calls.
  now destruct (body ws) as [[r ws1] calls1].
Qed.

(** ** The reconciliation pass *)

Section PassFacts.
Context `{Host} (cfg : Config).
Variables initialTypes finalTypes : gmap string ReturnType.

Lemma changeReturnType_run block returnType ws :
  changeReturnType block returnType ws =
  let rest := disposed block (unplugged block (topBlocks_ ws)) in
  match mutation block with
  | None =>
      (Throw TypeError, set_topBlocks ws rest,
       [Block_unplug block; Block_dispose block])
  | Some m =>
      match Xml_domToBlock (patched block m returnType) with
      | Ok newBlock =>
          (Ok tt, set_topBlocks ws (rest ++ [newBlock]),
           [Block_unplug block; Block_dispose block;
            Block_created newBlock; Block_moveBy newBlock])
      | Throw e =>
          (Throw e, set_topBlocks ws rest,
           [Block_unplug block; Block_dispose block])
      end
  end.
Proof.
  unfold changeReturnType, unplug, dispose, domToBlock, cmd_bind, getWorkspace,
    setWorkspace, call, eval, cmd_ret, patched.
  simpl. destruct (mutation block) as [m|]; [| reflexivity].
  destruct (Xml_domToBlock _) as [newBlock|e]; reflexivity.
Qed.

Lemma rewriteTarget_mustRewrite block actual :
  rewriteTarget cfg initialTypes finalTypes block = Some actual <->
  mustRewrite cfg initialTypes finalTypes block actual.
Proof.
  unfold rewriteTarget, mustRewrite, getProcCode, getReturn. split.
  - destruct (bool_decide (type block = PROCEDURES_CALL_BLOCK_TYPE)) eqn:Hty;
      [| discriminate].
    destruct (isInsertionMarker_ block) eqn:Hmarker; [discriminate |].
    destruct (bool_decide (is_Some (getNextBlock block))) eqn:Hnext;
      [discriminate |].
    simpl. destruct (mutation block) as [m|]; [| discriminate].
    destruct (initialTypes !! proccode m) as [initialType|] eqn:Hi; [| discriminate].
    destruct (finalTypes !! proccode m) as [actual'|] eqn:Hf; [| discriminate].
    destruct (bool_decide (default STATEMENT (return_ m) <> actual')) eqn:Hdiff;
      [| discriminate].
    destruct (negb (USER_CAN_CHANGE_CALL_TYPE cfg)
              || bool_decide (initialType <> actual')) eqn:Hwhy; [| discriminate].
    simpl. intros [= <-].
    apply bool_decide_eq_true in Hty. apply bool_decide_eq_true in Hdiff.
    apply bool_decide_eq_false in Hnext.
    split; [exact Hty |]. split; [reflexivity |]. split.
    { destruct (getNextBlock block); [| reflexivity]. exfalso. apply Hnext. eauto. }
    exists (proccode m), initialType, (default STATEMENT (return_ m)).
    repeat (split; [first [reflexivity | assumption] |]).
    apply orb_true_iff in Hwhy. destruct Hwhy as [Hu | Hc].
    + left. now apply negb_true_iff.
    + right. now apply bool_decide_eq_true in Hc.
  - intros (Hty & Hmarker & Hnext & procCode & initialType & current &
            Hcode & Hi & Hf & Hcur & Hdiff & Hwhy).
    rewrite (bool_decide_eq_true_2 _ Hty), Hmarker, Hnext. simpl.
    destruct (mutation block) as [m|]; [| discriminate Hcode].
    injection Hcode as <-. injection Hcur as <-. rewrite Hi, Hf.
    rewrite (bool_decide_eq_true_2 _ Hdiff). simpl.
    destruct Hwhy as [-> | Hc]; [reflexivity |].
    rewrite (bool_decide_eq_true_2 _ Hc). now rewrite orb_true_r.
Qed.

Lemma rewriteTarget_mutation block actual :
  rewriteTarget cfg initialTypes finalTypes block = Some actual ->
  is_Some (mutation block) /\ getNextBlock block = None.
Proof.
  intros Ht. apply rewriteTarget_mustRewrite in Ht.
  destruct Ht as (_ & _ & Hnext & procCode & _ & _ & Hcode & _).
  split; [| exact Hnext]. unfold getProcCode in Hcode.
  destruct (mutation block); [eauto | discriminate].
Qed.

(** The loop body rewrites the block when it must. *)
Lemma reconcile_rewrite block actual ws :
  rewriteTarget cfg initialTypes finalTypes block = Some actual ->
  reconcile cfg (Some initialTypes) finalTypes block ws
  = changeReturnType block actual ws.
Proof.
  unfold rewriteTarget, reconcile.
  destruct (bool_decide (type block = PROCEDURES_CALL_BLOCK_TYPE)); [| discriminate].
  destruct (isInsertionMarker_ block); [discriminate |].
  destruct (bool_decide (is_Some (getNextBlock block))); [discriminate |].
  simpl. unfold getProcCode, getReturn, cmd_bind, eval.
  destruct (mutation block) as [m|]; [| discriminate].
  destruct (initialTypes !! proccode m) as [initialType|]; [| discriminate].
  destruct (finalTypes !! proccode m) as [actual'|]; [| discriminate].
  simpl.
  destruct (bool_decide (default STATEMENT (return_ m) <> actual')
            && (negb (USER_CAN_CHANGE_CALL_TYPE cfg)
                || bool_decide (initialType <> actual'))); [| discriminate].
  intros [= <-]. now destruct (changeReturnType block actual' ws) as [[r ws1] c1].
Qed.

(** Otherwise it leaves the workspace alone and calls nothing. *)
Lemma reconcile_skip block ws :
  rewriteTarget cfg initialTypes finalTypes block = None ->
  final (reconcile cfg (Some initialTypes) finalTypes block ws) = ws /\
  calls (reconcile cfg (Some initialTypes) finalTypes block ws) = [].
Proof.
  unfold rewriteTarget, reconcile.
  destruct (bool_decide (type block = PROCEDURES_CALL_BLOCK_TYPE)); [| now split].
  destruct (isInsertionMarker_ block); [now split |].
  destruct (bool_decide (is_Some (getNextBlock block))); [now split |].
  simpl. unfold getProcCode, getReturn, cmd_bind, eval.
  destruct (mutation block) as [m|]; [| now split].
  destruct (initialTypes !! proccode m) as [initialType|]; [| now split].
  destruct (finalTypes !! proccode m) as [actual'|]; [| now split].
  simpl.
  destruct (bool_decide (default STATEMENT (return_ m) <> actual')
            && (negb (USER_CAN_CHANGE_CALL_TYPE cfg)
                || bool_decide (initialType <> actual'))); [discriminate |].
  now split.
Qed.

Lemma reconcile_Ok block ws :
  result (reconcile cfg (Some initialTypes) finalTypes block ws) = Ok tt ->
  calls (reconcile cfg (Some initialTypes) finalTypes block ws)
  = rewriteCalls cfg initialTypes finalTypes block /\
  rewriteSucceeds cfg initialTypes finalTypes block /\
  (forall actual m newBlock,
     rewriteTarget cfg initialTypes finalTypes block = Some actual ->
     mutation block = Some m ->
     Xml_domToBlock (patched block m actual) = Ok newBlock ->
     final (reconcile cfg (Some initialTypes) finalTypes block ws)
     = set_topBlocks ws
         (disposed block (unplugged block (topBlocks_ ws)) ++ [newBlock])).
Proof.
  unfold rewriteCalls, rewriteSucceeds.
  destruct (rewriteTarget cfg initialTypes finalTypes block) as [actual|] eqn:Ht.
  - rewrite (reconcile_rewrite _ _ ws Ht), changeReturnType_run. simpl.
    destruct (mutation block) as [m|]; [| discriminate].
    destruct (Xml_domToBlock (patched block m actual)) as [newBlock|e] eqn:Hdom;
      [| discriminate].
    intros _. split; [reflexivity |]. split.
    + intros ? [= <-]. eauto.
    + intros ? ? ? [= <-] [= <-] Hdom'. rewrite Hdom in Hdom'.
      now injection Hdom' as <-.
  - intros _. destruct (reconcile_skip _ ws Ht) as [_ Hcalls].
    rewrite Hcalls. split; [now destruct (mutation block) |].
    split; [intros ? [=] | intros ? ? ? [=]].
Qed.

Lemma unplug_dispose_keeps c topBlocks b newBlock :
  In c topBlocks -> getNextBlock c = None ->
  In b topBlocks -> id b <> id c ->
  In b (disposed c (unplugged c topBlocks) ++ [newBlock]).
Proof.
  intros Hc Hnext Hb Hid. apply in_or_app. left.
  assert (Hsame : same_block c b = false).
  { unfold same_block. apply bool_decide_eq_false. congruence. }
  unfold disposed, unplugged.
  replace (existsb (same_block c) topBlocks) with true.
  2:{ symmetry. apply existsb_exists. exists c. split; [exact Hc |].
      unfold same_block. now apply bool_decide_eq_true. }
  rewrite Hnext. simpl. rewrite app_nil_r.
  apply filter_In. split; [| now rewrite Hsame].
  apply in_map_iff. exists b. now rewrite Hsame.
Qed.

Lemma reconcile_keeps block ws b :
  result (reconcile cfg (Some initialTypes) finalTypes block ws) = Ok tt ->
  In block (topBlocks_ ws) -> In b (topBlocks_ ws) ->
  (rewriteTarget cfg initialTypes finalTypes block <> None -> id b <> id block) ->
  In b (topBlocks_ (final (reconcile cfg (Some initialTypes) finalTypes block ws))).
Proof.
  intros Hok Hblock Hb Hid.
  destruct (rewriteTarget cfg initialTypes finalTypes block) as [actual|] eqn:Ht.
  - destruct (reconcile_Ok block ws Hok) as (_ & Hsucc & Hfinal).
    destruct (Hsucc actual Ht) as (m & newBlock & Hm & Hdom).
    rewrite (Hfinal actual m newBlock Ht Hm Hdom). simpl.
    destruct (rewriteTarget_mutation _ _ Ht) as [_ Hnext].
    apply unplug_dispose_keeps; auto; now apply Hid.
  - destruct (reconcile_skip _ ws Ht) as [-> _]. exact Hb.
Qed.

Lemma forEach_reconcile_calls blocks ws :
  result (forEach (reconcile cfg (Some initialTypes) finalTypes) blocks ws) = Ok tt ->
  calls (forEach (reconcile cfg (Some initialTypes) finalTypes) blocks ws)
  = flat_map (rewriteCalls cfg initialTypes finalTypes) blocks /\
  Forall (rewriteSucceeds cfg initialTypes finalTypes) blocks.
Proof.
  revert ws. induction blocks as [|c rest IH]; intros ws Hok; simpl.
  - split; [reflexivity | constructor].
  - simpl in Hok. apply cmd_bind_Ok in Hok.
    destruct Hok as ([] & Hc & Hrest & Hcalls & _).
    destruct (reconcile_Ok c ws Hc) as (Hcc & Hsucc & _).
    destruct (IH _ Hrest) as [Hcr Hall].
    rewrite Hcalls, Hcc, Hcr. split; [reflexivity | now constructor].
Qed.

Lemma NoDup_id_inv c rest b :
  NoDup (map id (c :: rest)) -> In b rest -> id b <> id c.
Proof.
  simpl. intros Hnd Hb Heq. apply NoDup_cons in Hnd. destruct Hnd as [Hnotin _].
  apply Hnotin. rewrite <- Heq. apply list_elem_of_In. now apply in_map.
Qed.

Lemma forEach_reconcile_keeps blocks ws b :
  result (forEach (reconcile cfg (Some initialTypes) finalTypes) blocks ws) = Ok tt ->
  NoDup (map id blocks) ->
  (forall c, In c blocks -> In c (topBlocks_ ws)) ->
  In b (topBlocks_ ws) ->
  (forall c, In c blocks ->
     rewriteTarget cfg initialTypes finalTypes c <> None -> id b <> id c) ->
  In b (topBlocks_
          (final (forEach (reconcile cfg (Some initialTypes) finalTypes) blocks ws))).
Proof.
  revert ws. induction blocks as [|c rest IH]; intros ws Hok Hnd Hpending Hb Hid.
  - exact Hb.
  - simpl in Hok |- *. pose proof Hok as Hok'. apply cmd_bind_Ok in Hok'.
    destruct Hok' as ([] & Hc & Hrest & _ & ->).
    apply IH.
    + exact Hrest.
    + simpl in Hnd. apply NoDup_cons in Hnd. tauto.
    + intros d Hd. apply reconcile_keeps; auto using in_eq, in_cons.
      intros _. now apply (NoDup_id_inv c rest).
    + apply reconcile_keeps; auto using in_eq, in_cons.
    + auto using in_cons.
Qed.

(** With a host that keeps the id of the block it instantiates, the block a
    rewrite creates is still a top block when the loop ends. *)
Lemma forEach_reconcile_adds blocks ws c actual m newBlock :
  (forall xml nb, Xml_domToBlock xml = Ok nb -> id nb = id xml) ->
  result (forEach (reconcile cfg (Some initialTypes) finalTypes) blocks ws) = Ok tt ->
  NoDup (map id blocks) ->
  (forall d, In d blocks -> In d (topBlocks_ ws)) ->
  In c blocks ->
  rewriteTarget cfg initialTypes finalTypes c = Some actual ->
  mutation c = Some m ->
  Xml_domToBlock (patched c m actual) = Ok newBlock ->
  In newBlock
     (topBlocks_
        (final (forEach (reconcile cfg (Some initialTypes) finalTypes) blocks ws))).
Proof.
  intros Hhost. revert ws.
  induction blocks as [|d rest IH]; intros ws Hok Hnd Hpending Hc Ht Hm Hdom;
    [destruct Hc |].
  simpl in Hok |- *. pose proof Hok as Hok'. apply cmd_bind_Ok in Hok'.
  destruct Hok' as ([] & Hd & Hrest & _ & ->).
  assert (Hnd' : NoDup (map id rest)).
  { simpl in Hnd. apply NoDup_cons in Hnd. tauto. }
  assert (Hpending' : forall d', In d' rest ->
    In d' (topBlocks_ (final (reconcile cfg (Some initialTypes) finalTypes d ws)))).
  { intros d' Hd'. apply reconcile_keeps; auto using in_eq, in_cons.
    intros _. now apply (NoDup_id_inv d rest). }
  destruct Hc as [-> | Hc].
  - apply forEach_reconcile_keeps; auto.
    + destruct (reconcile_Ok c ws Hd) as (_ & _ & Hfinal).
      rewrite (Hfinal actual m newBlock Ht Hm Hdom). simpl.
      apply in_or_app. right. now left.
    + intros d' Hd' _. rewrite (Hhost _ _ Hdom). simpl.
      intros Heq. now apply (NoDup_id_inv c rest d').
  - now apply IH.
Qed.

Lemma toolboxOutdated_loop_spec entries :
  exists outdated,
    toolboxOutdated_loop (Some initialTypes) entries = Ok outdated /\
    (outdated = true <->
     exists procCode finalType initialType,
       In (procCode, finalType) entries /\
       initialTypes !! procCode = Some initialType /\
       initialType <> finalType).
Proof.
  induction entries as [|[procCode finalType] rest (outdated & Hrun & Hiff)]; simpl.
  - exists false. split; [reflexivity |].
    split; [discriminate | intros (? & ? & ? & [] & _)].
  - assert (Hrest :
      (forall i, initialTypes !! procCode = Some i -> i = finalType) ->
      outdated = true <->
      exists p f i,
        ((procCode, finalType) = (p, f) \/ In (p, f) rest) /\
        initialTypes !! p = Some i /\ i <> f).
    { intros Hsame. rewrite Hiff. split.
      - intros (p & f & i & Hin & Hrest). exists p, f, i. auto.
      - intros (p & f & i & [[= <- <-] | Hin] & Hi & Hne).
        + now apply Hsame in Hi.
        + exists p, f, i. auto. }
    destruct (initialTypes !! procCode) as [initialType|] eqn:Hi.
    + case_bool_decide as Hdiff.
      * exists true. split; [reflexivity |]. split; [intros _ | reflexivity].
        exists procCode, finalType, initialType. auto.
      * exists outdated. split; [exact Hrun |]. apply Hrest.
        intros i [= <-]. destruct (decide (initialType = finalType)); tauto.
    + exists outdated. split; [exact Hrun |]. apply Hrest. intros i [=].
Qed.

Lemma toolboxOutdated_typeChanged :
  exists outdated,
    toolboxOutdated_loop (Some initialTypes) (map_to_list finalTypes) = Ok outdated /\
    (outdated = true <-> typeChanged initialTypes finalTypes).
Proof.
  destruct (toolboxOutdated_loop_spec (map_to_list finalTypes))
    as (outdated & Hrun & Hiff).
  exists outdated. split; [exact Hrun |]. rewrite Hiff. unfold typeChanged. split.
  - intros (p & f & i & Hin & Hi & Hne). exists p, i, f.
    apply list_elem_of_In, elem_of_map_to_list in Hin. auto.
  - intros (p & i & f & Hi & Hf & Hne). exists p, f, i.
    split; [| auto]. now apply list_elem_of_In, elem_of_map_to_list.
Qed.

(** The pass, once its snapshots are known and it runs to its end. *)
Lemma processProcedureReturnsChanged__run ws :
  initialProcedureReturnTypes_ ws = Some initialTypes ->
  getAllProcedureReturnTypes ws = Ok finalTypes ->
  result (processProcedureReturnsChanged_ cfg ws) = Ok tt ->
  let loop :=
    forEach (reconcile cfg (Some initialTypes) finalTypes) (getTopBlocks ws)
      (passStarted ws) in
  result loop = Ok tt /\
  final (processProcedureReturnsChanged_ cfg ws) = final loop /\
  exists outdated,
    (outdated = true <-> typeChanged initialTypes finalTypes) /\
    calls (processProcedureReturnsChanged_ cfg ws)
    = Events_setGroup true :: calls loop
      ++ Events_setGroup false
         :: (if outdated : bool then [refreshToolboxSelection_] else []).
Proof.
  intros Hinit Hfin. destruct toolboxOutdated_typeChanged as (outdated & Hout & Hiff).
  unfold processProcedureReturnsChanged_, cmd_bind, getWorkspace, eval,
    setWorkspace, call, cmd_ret. rewrite Hinit, Hfin, Hout. fold (passStarted ws).
  simpl.
  destruct (forEach _ _ _) as [[[[]|e] ws1] calls1]; simpl; [| discriminate].
  intros _. split; [reflexivity |]. split; [now destruct outdated |].
  exists outdated. split; [exact Hiff |]. now destruct outdated.
Qed.

End PassFacts.

Section PassTheorems.
Context `{Host} (cfg : Config).
Variables initialTypes finalTypes : gmap string ReturnType.

Lemma in_rewriteCalls_dispose block c :
  In (Block_dispose block) (rewriteCalls cfg initialTypes finalTypes c) <->
  block = c /\ rewriteTarget cfg initialTypes finalTypes c <> None.
Proof.
  unfold rewriteCalls.
  destruct (rewriteTarget cfg initialTypes finalTypes c) as [actual|] eqn:Ht.
  - destruct (rewriteTarget_mutation _ _ _ _ _ Ht) as [[m ->] _]. split.
    + intros [[=] | [[= ->] | Hin]]; [now split |].
      destruct (Xml_domToBlock _); [| destruct Hin].
      destruct Hin as [[=] | [[=] | []]].
    + intros [-> _]. right. now left.
  - split; [intros [] | intros [_ Hne]; now destruct Hne].
Qed.

Lemma in_rewriteCalls_unplug block c :
  In (Block_unplug block) (rewriteCalls cfg initialTypes finalTypes c) ->
  block = c /\ rewriteTarget cfg initialTypes finalTypes c <> None.
Proof.
  unfold rewriteCalls.
  destruct (rewriteTarget cfg initialTypes finalTypes c) as [actual|] eqn:Ht;
    [| intros []].
  destruct (mutation c) as [m|]; [| intros []].
  intros [[= ->] | [[=] | Hin]]; [now split |].
  destruct (Xml_domToBlock _); [| destruct Hin].
  destruct Hin as [[=] | [[=] | []]].
Qed.

Lemma in_rewriteCalls_created c actual m newBlock :
  rewriteTarget cfg initialTypes finalTypes c = Some actual ->
  mutation c = Some m ->
  Xml_domToBlock (patched c m actual) = Ok newBlock ->
  In (Block_created newBlock) (rewriteCalls cfg initialTypes finalTypes c).
Proof.
  intros Ht Hm Hdom. unfold rewriteCalls. rewrite Ht, Hm, Hdom.
  right. right. now left.
Qed.

Lemma refresh_not_in_rewriteCalls blocks :
  ~ In refreshToolboxSelection_
      (flat_map (rewriteCalls cfg initialTypes finalTypes) blocks).
Proof.
  intros Hin. apply in_flat_map in Hin. destruct Hin as (c & _ & Hin).
  unfold rewriteCalls in Hin.
  destruct (rewriteTarget cfg initialTypes finalTypes c); [| destruct Hin].
  destruct (mutation c); [| destruct Hin].
  destruct Hin as [[=] | [[=] | Hin]].
  destruct (Xml_domToBlock _); [| destruct Hin].
  destruct Hin as [[=] | [[=] | []]].
Qed.

Lemma NoDup_id_eq (l : list Block) a b :
  NoDup (map id l) -> In a l -> In b l -> id a = id b -> a = b.
Proof.
  induction l as [|c rest IH]; intros Hnd Ha Hb Heq; [destruct Ha |].
  destruct Ha as [<- | Ha], Hb as [<- | Hb]; [reflexivity | | |].
  - exfalso. now apply (NoDup_id_inv c rest b).
  - exfalso. now apply (NoDup_id_inv c rest a).
  - simpl in Hnd. apply NoDup_cons in Hnd. now apply IH.
Qed.

End PassTheorems.

(** C3.  In a pass that runs to its end, a top block is rewritten exactly
    when it is a call site, is not an insertion marker, has no block beneath
    it, has its procCode in both snapshots, caches a return type other than
    the final one, and either the user cannot override call shapes or the
    type of the procedure changed between the snapshots.  It is then handed
    to the host with the final type patched in, and the block the host makes
    of it is a top block after the pass when the host keeps ids; a top block
    that need not be rewritten is neither unplugged nor disposed and is still
    a top block after the pass. *)
Theorem reconciliation_rewrites `{Host} cfg ws initialTypes finalTypes :
  initialProcedureReturnTypes_ ws = Some initialTypes ->
  getAllProcedureReturnTypes ws = Ok finalTypes ->
  result (processProcedureReturnsChanged_ cfg ws) = Ok tt ->
  NoDup (map id (getTopBlocks ws)) ->
  forall block, In block (getTopBlocks ws) ->
    let run := processProcedureReturnsChanged_ cfg ws in
    (In (Block_dispose block) (calls run) <->
     exists actual, mustRewrite cfg initialTypes finalTypes block actual) /\
    (forall actual,
       mustRewrite cfg initialTypes finalTypes block actual ->
       exists m newBlock,
         mutation block = Some m /\
         getReturn (patched block m actual) = Ok actual /\
         Xml_domToBlock (patched block m actual) = Ok newBlock /\
         In (Block_created newBlock) (calls run) /\
         ((forall xml nb, Xml_domToBlock xml = Ok nb -> id nb = id xml) ->
          In newBlock (topBlocks_ (final run)))) /\
    ((~ exists actual, mustRewrite cfg initialTypes finalTypes block actual) ->
     In block (topBlocks_ (final run)) /\
     ~ In (Block_unplug block) (calls run)).
Proof.
  intros Hinit Hfin Hok Hnd block Hblock run.
  destruct (processProcedureReturnsChanged__run cfg _ _ ws Hinit Hfin Hok)
    as (Hloop & Hfinal & outdated & _ & Hcalls).
  destruct (forEach_reconcile_calls cfg _ _ _ _ Hloop) as [Hlog Hsucc].
  unfold run. rewrite Hcalls, Hfinal, Hlog. clear Hcalls Hfinal Hlog.
  assert (Htarget : forall actual,
    mustRewrite cfg initialTypes finalTypes block actual <->
    rewriteTarget cfg initialTypes finalTypes block = Some actual).
  { intros actual. symmetry. apply rewriteTarget_mustRewrite. }
  split; [| split].
  - split.
    + intros [[=] | Hin]. apply in_app_or in Hin. destruct Hin as [Hin | Hin].
      * apply in_flat_map in Hin. destruct Hin as (c & _ & Hin).
        apply in_rewriteCalls_dispose in Hin. destruct Hin as [<- Hne].
        destruct (rewriteTarget cfg initialTypes finalTypes block) as [actual|] eqn:Ht;
          [| now destruct Hne].
        exists actual. now apply Htarget.
      * destruct Hin as [[=] | Hin]. destruct outdated; [| destruct Hin].
        destruct Hin as [[=] | []].
    + intros [actual Hmust]. apply Htarget in Hmust.
      right. apply in_or_app. left. apply in_flat_map. exists block.
      split; [exact Hblock |]. apply in_rewriteCalls_dispose.
      split; [reflexivity | congruence].
  - intros actual Hmust. apply Htarget in Hmust.
    rewrite Forall_forall in Hsucc.
    destruct (Hsucc block (proj2 (list_elem_of_In _ _) Hblock) actual Hmust)
      as (m & newBlock & Hm & Hdom).
    exists m, newBlock. split; [exact Hm |]. split; [reflexivity |].
    split; [exact Hdom |]. split.
    + right. apply in_or_app. left. apply in_flat_map. exists block.
      split; [exact Hblock |].
      now apply (in_rewriteCalls_created cfg _ _ _ actual m).
    + intros Hhost.
      now apply (forEach_reconcile_adds cfg _ _ _ _ block actual m newBlock).
  - intros Hno.
    assert (Hnone : rewriteTarget cfg initialTypes finalTypes block = None).
    { destruct (rewriteTarget cfg initialTypes finalTypes block) as [actual|] eqn:Ht;
        [| reflexivity].
      exfalso. apply Hno. exists actual. now apply Htarget. }
    split.
    + apply forEach_reconcile_keeps; auto.
      intros c Hc Hne Heq. apply Hne.
      now rewrite <- (NoDup_id_eq _ _ _ Hnd Hblock Hc Heq).
    + intros [[=] | Hin]. apply in_app_or in Hin. destruct Hin as [Hin | Hin].
      * apply in_flat_map in Hin. destruct Hin as (c & _ & Hin).
        apply in_rewriteCalls_unplug in Hin. destruct Hin as [<- Hne].
        contradiction.
      * destruct Hin as [[=] | Hin]. destruct outdated; [| destruct Hin].
        destruct Hin as [[=] | []].
Qed.

Lemma reconciliation_rewrites_witness :
  let run := @processProcedureReturnsChanged_ referenceHost defaultConfig
               driftedWorkspace in
  In (Block_dispose driftedCall) (calls run) /\
  In (Block_created (callBlock "c" "foo" (Some REPORTER) false [])) (calls run) /\
  In (callBlock "c" "foo" (Some REPORTER) false []) (topBlocks_ (final run)) /\
  In otherCall (topBlocks_ (final run)).
Proof.
  intros run.
  assert (Hnd : NoDup (map id (getTopBlocks driftedWorkspace))).
  { apply (bool_decide_unpack _). reflexivity. }
  assert (Hmust : mustRewrite defaultConfig {["foo" := STATEMENT]}
                    {["foo" := REPORTER]} driftedCall REPORTER).
  { repeat (split; [reflexivity |]).
    exists "foo", STATEMENT, STATEMENT.
    repeat (split; [reflexivity |]). split; [discriminate | right; discriminate]. }
  destruct (@reconciliation_rewrites referenceHost defaultConfig driftedWorkspace
              {["foo" := STATEMENT]} {["foo" := REPORTER]}
              eq_refl eq_refl eq_refl Hnd driftedCall)
    as (Hdispose & Hcreate & _); [simpl; tauto |].
  destruct (@reconciliation_rewrites referenceHost defaultConfig driftedWorkspace
              {["foo" := STATEMENT]} {["foo" := REPORTER]}
              eq_refl eq_refl eq_refl Hnd otherCall)
    as (_ & _ & Hkeep); [simpl; tauto |].
  destruct (Hcreate REPORTER Hmust)
    as (m & newBlock & [= <-] & _ & [= <-] & Hin & Htop).
  split; [| split; [| split]].
  - apply Hdispose. now exists REPORTER.
  - exact Hin.
  - apply Htop. now intros xml nb [= <-].
  - apply Hkeep. intros (actual & _ & _ & _ & procCode & i & c & [= <-] & Hi & _).
    discriminate Hi.
Defined.

(** C4.  In a pass that runs to its end, the toolbox refresh is requested
    exactly when some procCode of both snapshots has a different return type
    in the two. *)
Theorem toolbox_refresh_iff `{Host} cfg ws initialTypes finalTypes :
  initialProcedureReturnTypes_ ws = Some initialTypes ->
  getAllProcedureReturnTypes ws = Ok finalTypes ->
  result (processProcedureReturnsChanged_ cfg ws) = Ok tt ->
  In refreshToolboxSelection_ (calls (processProcedureReturnsChanged_ cfg ws)) <->
  typeChanged initialTypes finalTypes.
Proof.
  intros Hinit Hfin Hok.
  destruct (processProcedureReturnsChanged__run cfg _ _ ws Hinit Hfin Hok)
    as (Hloop & _ & outdated & Hiff & Hcalls).
  destruct (forEach_reconcile_calls cfg _ _ _ _ Hloop) as [Hlog _].
  rewrite Hcalls, Hlog, <- Hiff. split.
  - intros [[=] | Hin]. apply in_app_or in Hin. destruct Hin as [Hin | Hin].
    + now apply refresh_not_in_rewriteCalls in Hin.
    + destruct Hin as [[=] | Hin]. now destruct outdated.
  - intros ->. right. apply in_or_app. right. right. now left.
Qed.

Lemma toolbox_refresh_iff_witness :
  In refreshToolboxSelection_
    (calls (@processProcedureReturnsChanged_ referenceHost defaultConfig
              driftedWorkspace)).
Proof.
  apply (@toolbox_refresh_iff referenceHost defaultConfig driftedWorkspace
           {["foo" := STATEMENT]} {["foo" := REPORTER]} eq_refl eq_refl eq_refl).
  exists "foo", STATEMENT, REPORTER.
  split; [reflexivity | split; [reflexivity | discriminate]].
Defined.

(** ** Event groups and exceptions *)

Lemma group_closed_finally {A} (m : Cmd A) (body : A -> Cmd unit) ws :
  calls (m ws) = [] ->
  let run :=
    cmd_bind m
      (fun a =>
         cmd_bind (call (Events_setGroup true))
           (fun _ => try_finally (body a) (call (Events_setGroup false)))) ws in
  In (Events_setGroup true) (calls run) ->
  last (calls run) = Some (Events_setGroup false).
Proof.
  unfold cmd_bind, call, calls.
  destruct (m ws) as [[[a|e] ws1] calls1]; simpl; intros ->.
  - intros _. pose proof (try_finally_calls (body a) (Events_setGroup false) ws1)
      as Hbody.
    unfold calls in Hbody.
    destruct (try_finally (body a) _ ws1) as [[r ws2] calls2]. simpl in Hbody |- *.
    rewrite Hbody, app_comm_cons. apply last_snoc.
  - intros [].
Qed.

(** X16.  The menu callback closes the group it opened, whatever the rewrite
    does. *)
Lemma changeTypeOption_callback_closes_group `{Host} block isStatement ws :
  let run := changeTypeOption_callback block isStatement ws in
  In (Events_setGroup true) (calls run) ->
  last (calls run) = Some (Events_setGroup false).
Proof.
  unfold changeTypeOption_callback. apply group_closed_finally.
  destruct isStatement; [| reflexivity].
  unfold cmd_bind, eval, getWorkspace, cmd_ret, calls.
  destruct (getProcCode block); [| reflexivity].
  now destruct (getProcedureReturnType _ _).
Qed.

(** C10.  A host whose [Blockly.Xml.domToBlock] throws while the pass
    rewrites the drifted call of "foo": the pass ends with the exception
    after [setGroup(true)], the unplugging and the disposal, and
    [setGroup(false)] is never called.  [mutateCallersAndPrototype] leaves
    its group open in the same way when [domToMutation] throws. *)
Theorem group_left_open_when_rewrite_throws :
  let pass := @processProcedureReturnsChanged_ refusingHost defaultConfig
                driftedWorkspace in
  let edit := @mutateCallersAndPrototype refusingHost "foo"
                (sampleMutation "foo %s" None) driftedWorkspace in
  (result pass = Throw HostError /\
   calls pass = [Events_setGroup true; Block_unplug driftedCall;
                 Block_dispose driftedCall] /\
   ~ In (Events_setGroup false) (calls pass)) /\
  (result edit = Throw HostError /\
   calls edit = [Events_setGroup true;
                 Block_domToMutation driftedCall
                   (sampleElement "foo %s" nullText)] /\
   ~ In (Events_setGroup false) (calls edit)).
Proof.
  split; (split; [reflexivity | split; [reflexivity | absent_call]]).
Qed.

(** * Further properties *)

(** ** Strings *)

Lemma takeWhile_dropWhile {A} (p : A -> bool) l :
  takeWhile p l ++ dropWhile p l = l.
Proof.
  induction l as [|x l IH]; simpl; [reflexivity |].
  destruct (p x); simpl; [now rewrite IH | reflexivity].
Qed.

Lemma takeWhile_all {A} (p : A -> bool) l x :
  In x (takeWhile p l) -> p x = true.
Proof.
  induction l as [|y l IH]; simpl; [intros [] |].
  destruct (p y) eqn:Hy; [| intros []].
  intros [<- | Hin]; auto.
Qed.

Lemma dropWhile_head {A} (p : A -> bool) l x :
  head (dropWhile p l) = Some x -> p x = false.
Proof.
  induction l as [|y l IH]; simpl; [discriminate |].
  destruct (p y) eqn:Hy; [exact IH |]. now intros [= <-].
Qed.

Lemma dropWhile_id {A} (p : A -> bool) l :
  (forall x, head l = Some x -> p x = false) -> dropWhile p l = l.
Proof.
  destruct l as [|y l]; simpl; [reflexivity |].
  intros Hhead. now rewrite (Hhead y eq_refl).
Qed.

Lemma head_rev {A} (l : list A) : head (rev l) = last l.
Proof.
  induction l as [|x l IH] using rev_ind; [reflexivity |].
  now rewrite rev_unit, last_snoc.
Qed.

(** What is cut off the end of [l] satisfies [p]. *)
Lemma rev_dropWhile_rev {A} (p : A -> bool) l :
  exists cut, l = rev (dropWhile p (rev l)) ++ cut /\ forall x, In x cut -> p x = true.
Proof.
  exists (rev (takeWhile p (rev l))). split.
  - rewrite <- rev_app_distr, takeWhile_dropWhile. symmetry. apply rev_involutive.
  - intros x Hin. apply in_rev in Hin. now apply (takeWhile_all p (rev l)).
Qed.

Lemma string_of_list_ascii_app l1 l2 :
  String.string_of_list_ascii (l1 ++ l2)
  = String.string_of_list_ascii l1 +:+ String.string_of_list_ascii l2.
Proof. induction l1 as [|c l1 IH]; simpl; [reflexivity | now rewrite IH]. Qed.

(** X1.  The name [rename] goes on with has no white space at either end,
    and stripping it again changes nothing. *)
Theorem trim_stripped name :
  (forall c, head (chars (trim name)) = Some c -> isSpace c = false) /\
  (forall c, last (chars (trim name)) = Some c -> isSpace c = false) /\
  trim (trim name) = trim name.
Proof.
  unfold trim, chars. rewrite !String.list_ascii_of_string_of_list_ascii.
  set (m := dropWhile isSpace (String.list_ascii_of_string name)).
  set (t := rev (dropWhile isSpace (rev m))).
  assert (Hlast : forall c, last t = Some c -> isSpace c = false).
  { intros c Hc. unfold t in Hc. rewrite <- head_rev, rev_involutive in Hc.
    now apply dropWhile_head in Hc. }
  assert (Hhead : forall c, head t = Some c -> isSpace c = false).
  { intros c Hc. destruct (rev_dropWhile_rev isSpace m) as (cut & Hm & _).
    fold t in Hm. apply (dropWhile_head isSpace (String.list_ascii_of_string name)).
    fold m. rewrite Hm. destruct t; [discriminate | exact Hc]. }
  split; [exact Hhead |]. split; [exact Hlast |].
  rewrite (dropWhile_id isSpace t Hhead).
  rewrite (dropWhile_id isSpace (rev t)); [now rewrite rev_involutive |].
  intros c Hc. rewrite head_rev in Hc. auto.
Qed.

(** X2.  When the regular expression of [findLegalName] matches, its two
    groups split the name: the second is its longest run of digits at the
    end and is not empty, the first is the rest, ends in no digit and holds
    no line terminator. *)
Theorem match_trailing_number_splits name r1 r2 :
  match_trailing_number name = Some (r1, r2) ->
  r1 +:+ r2 = name /\
  chars r2 <> [] /\
  (forall c, In c (chars r2) -> isDigit c = true) /\
  (forall c, last (chars r1) = Some c -> isDigit c = false) /\
  (forall c, In c (chars r1) -> isLineTerminator c = false).
Proof.
  unfold match_trailing_number, chars.
  set (cs := String.list_ascii_of_string name).
  destruct (bool_decide (rev (takeWhile isDigit (rev cs)) = [])) eqn:Hempty;
    [discriminate |].
  destruct (existsb isLineTerminator (rev (dropWhile isDigit (rev cs)))) eqn:Hline;
    [discriminate |].
  simpl. intros [= <- <-]. rewrite !String.list_ascii_of_string_of_list_ascii.
  split; [| split; [| split; [| split]]].
  - rewrite <- string_of_list_ascii_app, <- rev_app_distr, takeWhile_dropWhile,
      rev_involutive.
    apply String.string_of_list_ascii_of_string.
  - now apply bool_decide_eq_false in Hempty.
  - intros c Hin. apply in_rev in Hin. now apply (takeWhile_all isDigit (rev cs)).
  - intros c Hc. rewrite <- head_rev, rev_involutive in Hc.
    now apply dropWhile_head in Hc.
  - intros c Hin. destruct (isLineTerminator c) eqn:Hc; [| reflexivity].
    assert (Hex : existsb isLineTerminator (rev (dropWhile isDigit (rev cs))) = true).
    { apply existsb_exists. eauto. }
    congruence.
Qed.

Lemma match_trailing_number_splits_witness :
  "foo" +:+ "41" = "foo41".
Proof.
  exact (proj1 (match_trailing_number_splits "foo41" "foo" "41" eq_refl)).
Defined.

(** ** Sorting and listing *)

(** X3.  [sortProcedureMutations_] returns a list that is already in order
    as it is. *)
Theorem sortProcedureMutations__sorted_fixed `{Host} mutations :
  Sorted procCodeLe mutations ->
  sortProcedureMutations_ mutations = mutations.
Proof.
  unfold sortProcedureMutations_.
  induction 1 as [|m rest Hsorted IH Hhd]; simpl; [reflexivity |].
  rewrite IH.
  destruct Hhd as [|m' rest' Hle]; simpl; [reflexivity |].
  unfold procCodeLe in Hle. apply Z.leb_le in Hle. now rewrite Hle.
Qed.

Lemma sortProcedureMutations__sorted_fixed_witness :
  @sortProcedureMutations_ referenceHost
    [sampleMutation "A" None; sampleMutation "b" None; sampleMutation "C" None]
  = [sampleMutation "A" None; sampleMutation "b" None; sampleMutation "C" None].
Proof.
  apply (@sortProcedureMutations__sorted_fixed referenceHost
           [sampleMutation "A" None; sampleMutation "b" None; sampleMutation "C" None]).
  repeat first [apply Sorted_cons | apply Sorted_nil | apply HdRel_cons | apply HdRel_nil];
    apply Z.leb_le; reflexivity.
Defined.

Section ListingFacts.
Context `{Host}.

Lemma tuple_insert_Permutation x l : tuple_insert x l ≡ₚ x :: l.
Proof.
  induction l as [|y l' IH]; simpl; [reflexivity |].
  destruct (procTupleComparator_ x y <=? 0)%Z; [reflexivity |].
  rewrite IH. apply Permutation_swap.
Qed.

Lemma tuple_sort_Permutation l : tuple_sort l ≡ₚ l.
Proof.
  induction l as [|x l IH]; simpl; [reflexivity |].
  now rewrite tuple_insert_Permutation, IH.
Qed.

Lemma tuple_insert_HdRel a x l :
  tupleLe a x -> HdRel tupleLe a l -> HdRel tupleLe a (tuple_insert x l).
Proof.
  intros Hax Hal. destruct l as [|y l']; simpl; [now constructor |].
  destruct (procTupleComparator_ x y <=? 0)%Z; constructor;
    [exact Hax | now inversion Hal].
Qed.

Lemma tuple_sort_Sorted l :
  (forall a b, (0 < compareStrings a b)%Z -> (compareStrings b a <= 0)%Z) ->
  Sorted tupleLe (tuple_sort l).
Proof.
  intros Htotal. induction l as [|x l IH]; simpl; [constructor |].
  revert IH. generalize (tuple_sort l). clear l. intros l.
  induction l as [|y l' IHl]; intros Hs; simpl.
  - repeat constructor.
  - destruct (procTupleComparator_ x y <=? 0)%Z eqn:Hle.
    + constructor; [exact Hs |]. constructor. apply Z.leb_le. exact Hle.
    + apply Z.leb_gt in Hle. inversion Hs as [|? ? Hs' Hhd]; subst.
      constructor; [now apply IHl |].
      apply tuple_insert_HdRel; [| exact Hhd].
      apply Htotal. exact Hle.
Qed.

Lemma allProcedures_loop_arrays blocks proceduresReturn proceduresNoReturn :
  allProcedures_loop blocks proceduresReturn proceduresNoReturn
  = (proceduresNoReturn
       ++ List.filter (fun t => negb (tuple_hasReturn t)) (omap getProcedureDef blocks),
     proceduresReturn
       ++ List.filter tuple_hasReturn (omap getProcedureDef blocks)).
Proof.
  revert proceduresReturn proceduresNoReturn.
  induction blocks as [|b rest IH]; intros withReturn noReturn; simpl.
  - now rewrite !app_nil_r.
  - destruct (getProcedureDef b) as [tuple|]; simpl; [| apply IH].
    destruct (tuple_hasReturn tuple); simpl; rewrite IH, <- app_assoc; reflexivity.
Qed.

End ListingFacts.

(** X4.  [allProcedures] lists every definition tuple of the workspace
    once: those without a return value in its first list, those with one in
    its second, each list in the order of the comparator. *)
Theorem allProcedures_partition `{Host} root :
  (forall a b, (0 < compareStrings a b)%Z -> (compareStrings b a <= 0)%Z) ->
  let lists := allProcedures root in
  fst lists ≡ₚ List.filter (fun t => negb (tuple_hasReturn t)) (definedTuples root) /\
  snd lists ≡ₚ List.filter tuple_hasReturn (definedTuples root) /\
  Sorted tupleLe (fst lists) /\
  Sorted tupleLe (snd lists).
Proof.
  intros Htotal. unfold allProcedures, definedTuples.
  rewrite allProcedures_loop_arrays. simpl.
  repeat split; auto using tuple_sort_Permutation, tuple_sort_Sorted.
Qed.

Lemma allProcedures_partition_witness :
  let returning :=
    {| id := "r"; type := "procedures_defreturn"; isInsertionMarker_ := false;
       isInFlyout := false; outputShape_ := None; mutation := None;
       getProcedureDef := Some {| tuple_name := "Area"; tuple_params := ["w"; "h"];
                                  tuple_hasReturn := true |};
       renameProcedure := true; childBlocks_ := [] |} in
  let root := workspaceOf [classicDefinition "a" "zoom"; returning;
                           classicDefinition "b" "Blink"] None in
  @allProcedures referenceHost root
  = ([{| tuple_name := "Blink"; tuple_params := []; tuple_hasReturn := false |};
      {| tuple_name := "zoom"; tuple_params := []; tuple_hasReturn := false |}],
     [{| tuple_name := "Area"; tuple_params := ["w"; "h"]; tuple_hasReturn := true |}])
  /\ Sorted (@tupleLe referenceHost) (fst (@allProcedures referenceHost root)).
Proof.
  intros returning root. split; [reflexivity |].
  exact (proj1 (proj2 (proj2
    (@allProcedures_partition referenceHost root reference_compareStrings_total)))).
Defined.

(** ** Definitions and snapshots *)

Lemma getDefineBlock_loop_first procCode blocks r :
  getDefineBlock_loop procCode blocks = Ok r ->
  match r with
  | Some d =>
      exists before after,
        blocks = before ++ d :: after /\ defines procCode d /\
        forall b, In b before -> ~ defines procCode b
  | None => forall b, In b blocks -> ~ defines procCode b
  end.
Proof.
  induction blocks as [|b rest IH]; simpl.
  - intros [= <-]. intros b [].
  - assert (Hskip : ~ defines procCode b ->
      getDefineBlock_loop procCode rest = Ok r ->
      match r with
      | Some d =>
          exists before after,
            b :: rest = before ++ d :: after /\ defines procCode d /\
            forall b', In b' before -> ~ defines procCode b'
      | None => forall b', b = b' \/ In b' rest -> ~ defines procCode b'
      end).
    { intros Hnot Hrest. specialize (IH Hrest). destruct r as [d|].
      - destruct IH as (before & after & -> & Hd & Hbefore).
        exists (b :: before), after. split; [reflexivity |]. split; [exact Hd |].
        intros b' [<- | Hin]; auto.
      - intros b' [<- | Hin]; auto. }
    case_bool_decide as Hty.
    2:{ apply Hskip. intros [Hty' _]. contradiction. }
    destruct (inputTargetBlock "custom_block" b) as [proto|] eqn:Hproto;
      [| discriminate].
    destruct (mutation proto) as [m|] eqn:Hm.
    2:{ apply Hskip. intros (_ & p & m & Hp & Hm' & _). congruence. }
    case_bool_decide as Hcode.
    2:{ apply Hskip. intros (_ & p & m' & Hp & Hm' & Hcode'). congruence. }
    intros [= <-]. exists [], rest. split; [reflexivity |]. split.
    + split; [exact Hty |]. exists proto, m. auto.
    + intros b' [].
Qed.

(** X5.  [getDefineBlock] returns the first top block that defines the
    procCode, and nothing exactly when no top block defines it. *)
Theorem getDefineBlock_first_definition procCode workspace r :
  getDefineBlock procCode workspace = Ok r ->
  match r with
  | Some d =>
      exists before after,
        getTopBlocks workspace = before ++ d :: after /\ defines procCode d /\
        forall b, In b before -> ~ defines procCode b
  | None => forall b, In b (getTopBlocks workspace) -> ~ defines procCode b
  end.
Proof. apply getDefineBlock_loop_first. Qed.

Lemma getDefineBlock_first_definition_witness :
  let first := definitionBlock "d1" "foo" None in
  let second := definitionBlock "d2" "foo" (Some (returnBlock "r" (literal "42"))) in
  exists before after,
    [otherCall; first; second] = before ++ first :: after /\ defines "foo" first /\
    forall b, In b before -> ~ defines "foo" b.
Proof.
  intros first second.
  exact (getDefineBlock_first_definition "foo"
           (workspaceOf [otherCall; first; second] None) (Some first) eq_refl).
Defined.

(** X6.  [getPrototypeBlock] finds a prototype exactly when [getDefineBlock]
    finds a definition: it is the block in the definition's [custom_block]
    input, and its procCode is the one asked for. *)
Theorem getPrototypeBlock_of_definition procCode workspace r :
  getDefineBlock procCode workspace = Ok r ->
  match r with
  | Some d =>
      exists prototypeBlock,
        getPrototypeBlock procCode workspace = Ok (Some prototypeBlock) /\
        inputTargetBlock "custom_block" d = Some prototypeBlock /\
        getProcCode prototypeBlock = Ok procCode
  | None => getPrototypeBlock procCode workspace = Ok None
  end.
Proof.
  intros Hdef. unfold getPrototypeBlock. rewrite Hdef. simpl.
  apply getDefineBlock_loop_first in Hdef. destruct r as [d|]; [| reflexivity].
  destruct Hdef as (_ & _ & _ & (_ & proto & m & Hproto & Hm & Hcode) & _).
  exists proto. rewrite Hproto. split; [reflexivity |]. split; [reflexivity |].
  unfold getProcCode. now rewrite Hm, Hcode.
Qed.

Lemma getPrototypeBlock_of_definition_witness :
  exists prototypeBlock,
    getPrototypeBlock "foo" driftedWorkspace = Ok (Some prototypeBlock) /\
    getProcCode prototypeBlock = Ok "foo".
Proof.
  destruct (getPrototypeBlock_of_definition "foo" driftedWorkspace _ eq_refl)
    as (prototypeBlock & Hproto & _ & Hcode).
  exists prototypeBlock. auto.
Defined.

Lemma getAllProcedureReturnTypes_loop_first blocks result types :
  getAllProcedureReturnTypes_loop blocks result = Ok types ->
  (forall b, In b blocks -> type b = PROCEDURES_DEFINITION_BLOCK_TYPE ->
     isInsertionMarker_ b = false) ->
  forall procCode,
    exists r,
      getDefineBlock_loop procCode blocks = Ok r /\
      types !! procCode =
        match result !! procCode with
        | Some t => Some t
        | None => getBlockReturnType <$> r
        end.
Proof.
  revert result. induction blocks as [|b rest IH]; intros result; simpl.
  - intros [= <-] _ procCode. exists None. split; [reflexivity |].
    now destruct (result !! procCode).
  - intros Hrun Hmarkers procCode.
    assert (Hrest : forall b', In b' rest ->
      type b' = PROCEDURES_DEFINITION_BLOCK_TYPE -> isInsertionMarker_ b' = false).
    { intros b' Hin. apply Hmarkers. now right. }
    case_bool_decide as Hty.
    2:{ simpl in Hrun. now apply IH. }
    rewrite (Hmarkers b (or_introl eq_refl) Hty) in Hrun. simpl in Hrun.
    destruct (inputTargetBlock "custom_block" b) as [proto|]; [| discriminate].
    unfold getProcCode in Hrun.
    destruct (mutation proto) as [m|]; [| discriminate]. simpl in Hrun.
    destruct (result !! proccode m) as [t|] eqn:Hseen.
    + destruct (IH _ Hrun Hrest procCode) as (r & Hr & Htypes).
      case_bool_decide as Hcode.
      * exists (Some b). split; [reflexivity |].
        rewrite Htypes. subst procCode. now rewrite Hseen.
      * exists r. auto.
    + destruct (IH _ Hrun Hrest procCode) as (r & Hr & Htypes).
      case_bool_decide as Hcode.
      * exists (Some b). split; [reflexivity |].
        rewrite Htypes. subst procCode. now rewrite lookup_insert_eq, Hseen.
      * exists r. split; [exact Hr |]. rewrite Htypes.
        now rewrite lookup_insert_ne.
Qed.

(** X7.  On a workspace whose top-level definitions are not insertion
    markers, the snapshot of [getAllProcedureReturnTypes] has an entry for a
    procCode exactly when [getDefineBlock] finds a definition for it, the
    entry is the return type of that definition, and so it agrees with
    [getProcedureReturnType] on every procCode. *)
Theorem getAllProcedureReturnTypes_agrees workspace types :
  getAllProcedureReturnTypes workspace = Ok types ->
  (forall b, In b (getTopBlocks workspace) ->
     type b = PROCEDURES_DEFINITION_BLOCK_TYPE -> isInsertionMarker_ b = false) ->
  forall procCode,
    (exists r, getDefineBlock procCode workspace = Ok r /\
               types !! procCode = getBlockReturnType <$> r) /\
    getProcedureReturnType procCode workspace
    = Ok (default STATEMENT (types !! procCode)).
Proof.
  intros Hrun Hmarkers procCode.
  destruct (getAllProcedureReturnTypes_loop_first _ _ _ Hrun Hmarkers procCode)
    as (r & Hr & Htypes).
  rewrite lookup_empty in Htypes. split; [exists r; auto |].
  unfold getProcedureReturnType, getDefineBlock. rewrite Hr, Htypes.
  now destruct r.
Qed.

Lemma getAllProcedureReturnTypes_agrees_witness :
  getProcedureReturnType "foo" driftedWorkspace = Ok REPORTER /\
  getProcedureReturnType "bar" driftedWorkspace = Ok STATEMENT.
Proof.
  assert (Hmarkers : forall b, In b (getTopBlocks driftedWorkspace) ->
    type b = PROCEDURES_DEFINITION_BLOCK_TYPE -> isInsertionMarker_ b = false).
  { intros b [<- | [<- | [<- | []]]] _; reflexivity. }
  split.
  - exact (proj2 (getAllProcedureReturnTypes_agrees driftedWorkspace
                    {["foo" := REPORTER]} eq_refl Hmarkers "foo")).
  - exact (proj2 (getAllProcedureReturnTypes_agrees driftedWorkspace
                    {["foo" := REPORTER]} eq_refl Hmarkers "bar")).
Defined.

Lemma getAllProcedureReturnTypes_loop_markers blocks result :
  getAllProcedureReturnTypes_loop blocks result
  = getAllProcedureReturnTypes_loop
      (List.filter (fun b => negb (isInsertionMarker_ b)) blocks) result.
Proof.
  revert result. induction blocks as [|b rest IH]; intros result; simpl;
    [reflexivity |].
  destruct (isInsertionMarker_ b) eqn:Hmarker; simpl.
  - rewrite andb_false_r. apply IH.
  - rewrite Hmarker, andb_true_r.
    case_bool_decide; [| apply IH].
    destruct (inputTargetBlock "custom_block" b) as [proto|]; [| reflexivity].
    destruct (getProcCode proto) as [procCode|]; [| reflexivity]. simpl.
    destruct (result !! procCode); apply IH.
Qed.

(** X8.  Insertion markers contribute nothing to the snapshot: taking them
    off the top blocks leaves the result of [getAllProcedureReturnTypes] as
    it is, also when that result is an exception. *)
Theorem getAllProcedureReturnTypes_skips_markers workspace :
  getAllProcedureReturnTypes workspace
  = getAllProcedureReturnTypes
      (set_topBlocks workspace
         (List.filter (fun b => negb (isInsertionMarker_ b)) (topBlocks_ workspace))).
Proof. apply getAllProcedureReturnTypes_loop_markers. Qed.

(** ** Callers and deletion *)

Lemma filter_sublist {A} (f : A -> bool) (l1 l2 : list A) :
  l1 `sublist_of` l2 -> List.filter f l1 `sublist_of` List.filter f l2.
Proof.
  induction 1 as [|x l1 l2 Hsub IH|x l1 l2 Hsub IH]; simpl.
  - constructor.
  - destruct (f x); [now constructor | exact IH].
  - destruct (f x); [now constructor | exact IH].
Qed.

Lemma filter_none {A} (f : A -> bool) (l : list A) :
  (forall x, In x l -> f x = false) -> List.filter f l = [].
Proof.
  induction l as [|x l IH]; intros Hall; simpl; [reflexivity |].
  rewrite (Hall x (or_introl eq_refl)). apply IH. intros y Hy. apply Hall. now right.
Qed.

Lemma investigated_sublist topBlocks definitionRoot :
  investigated topBlocks definitionRoot false
  `sublist_of` investigated topBlocks definitionRoot true.
Proof.
  unfold investigated.
  induction topBlocks as [|t rest IH]; cbn [flat_map]; [constructor |].
  rewrite andb_false_r, andb_true_r.
  case_bool_decide; simpl.
  - now apply sublist_inserts_l.
  - now apply sublist_app.
Qed.

Lemma investigated_all topBlocks definitionRoot :
  investigated topBlocks definitionRoot true = flat_map getDescendants topBlocks.
Proof.
  unfold investigated. apply flat_map_ext. intros t.
  now rewrite andb_false_r.
Qed.

Lemma callsHaveProcCode_sublist l1 l2 :
  l1 `sublist_of` l2 -> callsHaveProcCode l2 -> callsHaveProcCode l1.
Proof.
  intros Hsub Hwf b Hin. apply Hwf.
  apply list_elem_of_In. eapply elem_of_sublist; [| exact Hsub].
  now apply list_elem_of_In.
Qed.

(** X9.  The callers found without recursive calls are, in the same order,
    among those found with them; what recursion adds lies in a stack that
    starts with a block of [definitionRoot]'s id; and with recursion allowed
    all call sites of the workspace are found, whatever [definitionRoot]
    is. *)
Theorem getCallers_recursion name ws definitionRoot :
  callsHaveProcCode (getAllBlocks ws) ->
  exists outside all,
    getCallers name ws definitionRoot false = Ok outside /\
    getCallers name ws definitionRoot true = Ok all /\
    all = List.filter (isCallerOf name) (getAllBlocks ws) /\
    outside `sublist_of` all /\
    forall b, In b all ->
      In b outside \/
      exists t, In t (getTopBlocks ws) /\ id t = id definitionRoot /\
                In b (getDescendants t).
Proof.
  intros Hwf. unfold getCallers, getAllBlocks in *.
  pose proof (investigated_sublist (getTopBlocks ws) definitionRoot) as Hsub.
  rewrite investigated_all in Hsub |- *.
  exists (List.filter (isCallerOf name)
            (investigated (getTopBlocks ws) definitionRoot false)),
         (List.filter (isCallerOf name) (flat_map getDescendants (getTopBlocks ws))).
  split; [apply getCallers_loop_filter; now apply (callsHaveProcCode_sublist _ _ Hsub) |].
  split; [now apply getCallers_loop_filter |].
  split; [reflexivity |]. split; [now apply filter_sublist |].
  intros b Hin. apply filter_In in Hin. destruct Hin as [Hin Hcaller].
  apply in_flat_map in Hin. destruct Hin as (t & Ht & Hb).
  destruct (decide (id t = id definitionRoot)) as [Heq | Hne].
  - right. exists t. auto.
  - left. apply filter_In. split; [| exact Hcaller].
    unfold investigated. apply in_flat_map. exists t. split; [exact Ht |].
    now rewrite (bool_decide_eq_false_2 _ Hne).
Qed.

Lemma getCallers_recursion_witness :
  let root := definitionBlock "d" "f" (Some (callBlock "rec" "f" None false [])) in
  let ws := workspaceOf [root; callBlock "c" "f" None false []] None in
  exists outside all,
    getCallers "f" ws root false = Ok outside /\
    getCallers "f" ws root true = Ok all /\
    outside `sublist_of` all.
Proof.
  intros root ws.
  destruct (getCallers_recursion "f" ws root)
    as (outside & all & H1 & H2 & _ & Hsub & _); [| now exists outside, all].
  intros b Hin Hty. simpl in Hin.
  destruct Hin as [<- | [<- | [<- | [<- | []]]]];
      first [discriminate Hty | eexists; reflexivity].
Defined.

Lemma getCallers_loop_empty_name allBlocks callers :
  getCallers_loop "" allBlocks = Ok callers -> callers = [].
Proof.
  revert callers. induction allBlocks as [|b rest IH]; intros callers; simpl.
  - now intros [= <-].
  - case_bool_decide; [| apply IH].
    destruct (getProcCode b) as [procCode|]; [| discriminate]. simpl.
    destruct (getCallers_loop "" rest) as [found|]; [| discriminate]. simpl.
    intros [= <-]. rewrite (IH found eq_refl).
    now destruct (decide (procCode = "")) as [-> | Hne];
      [| rewrite (bool_decide_eq_false_2 _ Hne), andb_false_r].
Qed.

(** X10.  A procedure with the empty procCode has no callers: asked for the
    empty name, [getCallers] returns no block at all. *)
Theorem getCallers_empty_name ws definitionRoot allowRecursive callers :
  getCallers "" ws definitionRoot allowRecursive = Ok callers -> callers = [].
Proof. apply getCallers_loop_empty_name. Qed.

Lemma getCallers_empty_name_witness :
  getCallers "" (workspaceOf [callBlock "c" "" None false []] None)
    (definitionBlock "d" "" None) false
  = Ok [].
Proof.
  destruct (getCallers "" (workspaceOf [callBlock "c" "" None false []] None)
              (definitionBlock "d" "" None) false) as [callers|e] eqn:Hrun.
  - now rewrite (getCallers_empty_name _ _ _ _ Hrun).
  - discriminate Hrun.
Defined.

(** X11.  Calls of a procedure from inside its own definition do not stand
    in the way of deleting it: when no other stack holds a call site of the
    procCode, [deleteProcedureDefCallback] answers [true]. *)
Theorem deleteProcedureDefCallback_ignores_recursion procCode definitionRoot ws :
  callsHaveProcCode (getAllBlocks ws) ->
  (forall t b, In t (getTopBlocks ws) -> id t <> id definitionRoot ->
               In b (getDescendants t) -> isCallerOf procCode b = false) ->
  result (deleteProcedureDefCallback procCode definitionRoot ws) = Ok true.
Proof.
  intros Hwf Hnone.
  assert (Hcallers : getCallers procCode ws definitionRoot false = Ok []).
  { unfold getCallers. rewrite getCallers_loop_filter.
    - f_equal. apply filter_none. intros b Hin. unfold investigated in Hin.
      apply in_flat_map in Hin. destruct Hin as (t & Ht & Hb).
      rewrite andb_true_r in Hb. case_bool_decide as Hid; [destruct Hb |].
      now rewrite (Hnone t b Ht Hid Hb).
    - apply (callsHaveProcCode_sublist _ (getAllBlocks ws)); [| exact Hwf].
      unfold getAllBlocks. rewrite <- (investigated_all _ definitionRoot).
      apply investigated_sublist. }
  unfold deleteProcedureDefCallback, cmd_bind, getWorkspace, eval.
  now rewrite Hcallers.
Qed.

Lemma deleteProcedureDefCallback_ignores_recursion_witness :
  let root := definitionBlock "d" "f" (Some (callBlock "rec" "f" None false [])) in
  result (deleteProcedureDefCallback "f" root (workspaceOf [root; otherCall] None))
  = Ok true.
Proof.
  intros root. apply deleteProcedureDefCallback_ignores_recursion.
  - intros b Hin Hty. simpl in Hin.
    destruct Hin as [<- | [<- | [<- | [<- | []]]]];
      first [discriminate Hty | eexists; reflexivity].
  - intros t b [<- | [<- | []]] Hid Hin; [now destruct Hid |].
    destruct Hin as [<- | []]. reflexivity.
Defined.

(** X12.  After a successful deletion no procCode is defined by a block with
    the id of the deleted root any more. *)
Theorem deleteProcedureDefCallback_undefines procCode definitionRoot ws p d :
  let run := deleteProcedureDefCallback procCode definitionRoot ws in
  result run = Ok true ->
  getDefineBlock p (final run) = Ok (Some d) ->
  id d <> id definitionRoot.
Proof.
  unfold deleteProcedureDefCallback, cmd_bind, getWorkspace, eval.
  destruct (getCallers procCode ws definitionRoot false) as [[|c callers]|e];
    simpl; try discriminate.
  intros _ Hdef. apply getDefineBlock_loop_first in Hdef.
  destruct Hdef as (before & after & Htops & _).
  assert (Hin : In d (disposed definitionRoot (topBlocks_ ws))).
  { unfold getTopBlocks in Htops. simpl in Htops. rewrite Htops.
    apply in_or_app. right. now left. }
  apply filter_In in Hin. destruct Hin as [_ Hne].
  unfold same_block in Hne. apply negb_true_iff, bool_decide_eq_false in Hne.
  congruence.
Qed.

Lemma deleteProcedureDefCallback_undefines_witness :
  let root := definitionBlock "d" "f" None in
  let kept := definitionBlock "k" "g" None in
  id kept <> id root.
Proof.
  intros root kept.
  exact (deleteProcedureDefCallback_undefines "f" root
           (workspaceOf [root; kept] None) "g" kept eq_refl eq_refl).
Defined.

(** ** Rewriting one call site *)

Lemma dispose_after_unplug block topBlocks :
  In block topBlocks -> getNextBlock block = None ->
  disposed block (unplugged block topBlocks) = disposed block topBlocks.
Proof.
  intros Hin Hnext. unfold unplugged.
  replace (existsb (same_block block) topBlocks) with true.
  2:{ symmetry. apply existsb_exists. exists block. split; [exact Hin |].
      unfold same_block. now apply bool_decide_eq_true. }
  rewrite Hnext. simpl. rewrite app_nil_r. clear Hin.
  unfold disposed. induction topBlocks as [|t rest IH]; simpl; [reflexivity |].
  destruct (same_block block t) eqn:Hsame.
  - replace (same_block block (withoutNext t)) with true
      by (symmetry; exact Hsame).
    exact IH.
  - rewrite Hsame. simpl. now rewrite IH.
Qed.

(** X13.  A rewrite that throws has already taken the call site away: the
    host was asked to unplug and to dispose the block, nothing else, and no
    top block with its id is left. *)
Theorem changeReturnType_failure_loses_block `{Host} block returnType ws e :
  let run := changeReturnType block returnType ws in
  result run = Throw e ->
  calls run = [Block_unplug block; Block_dispose block] /\
  forall b, In b (topBlocks_ (final run)) -> id b <> id block.
Proof.
  intros run. unfold run. rewrite changeReturnType_run. simpl.
  assert (Hgone : forall b,
    In b (disposed block (unplugged block (topBlocks_ ws))) -> id b <> id block).
  { intros b Hin. apply filter_In in Hin. destruct Hin as [_ Hne].
    unfold same_block in Hne. apply negb_true_iff, bool_decide_eq_false in Hne.
    congruence. }
  destruct (mutation block) as [m|]; [| intros _; now split].
  destruct (Xml_domToBlock _); [discriminate |]. intros _. now split.
Qed.

Lemma changeReturnType_failure_loses_block_witness :
  let run := @changeReturnType refusingHost driftedCall REPORTER driftedWorkspace in
  calls run = [Block_unplug driftedCall; Block_dispose driftedCall] /\
  forall b, In b (topBlocks_ (final run)) -> id b <> id driftedCall.
Proof.
  exact (@changeReturnType_failure_loses_block refusingHost driftedCall REPORTER
           driftedWorkspace HostError eq_refl).
Defined.

(** X14.  A rewrite of a loose call site that succeeds leaves the other top
    blocks as they were and in their order, takes the call site out, and puts
    what the host makes of its patched snapshot at the end of the list. *)
Theorem changeReturnType_top_block `{Host} block returnType ws :
  let run := changeReturnType block returnType ws in
  In block (topBlocks_ ws) -> getNextBlock block = None ->
  result run = Ok tt ->
  exists m newBlock,
    mutation block = Some m /\
    Xml_domToBlock (patched block m returnType) = Ok newBlock /\
    topBlocks_ (final run) = disposed block (topBlocks_ ws) ++ [newBlock] /\
    calls run = [Block_unplug block; Block_dispose block;
                 Block_created newBlock; Block_moveBy newBlock].
Proof.
  intros run Hin Hnext. unfold run. rewrite changeReturnType_run. simpl.
  destruct (mutation block) as [m|]; [| discriminate].
  destruct (Xml_domToBlock (patched block m returnType)) as [newBlock|] eqn:Hdom;
    [| discriminate].
  intros _. exists m, newBlock. simpl.
  now rewrite (dispose_after_unplug _ _ Hin Hnext).
Qed.

Lemma changeReturnType_top_block_witness :
  topBlocks_ (final (@changeReturnType referenceHost driftedCall REPORTER
                       driftedWorkspace))
  = [definitionBlock "d" "foo" (Some (returnBlock "r" (literal "42")));
     otherCall; callBlock "c" "foo" (Some REPORTER) false []].
Proof.
  destruct (@changeReturnType_top_block referenceHost driftedCall REPORTER
              driftedWorkspace) as (m & newBlock & [= <-] & [= <-] & Htops & _);
    [simpl; tauto | reflexivity | reflexivity |].
  exact Htops.
Defined.

Lemma try_finally_call {A} (body : Cmd A) (c : HostCall) ws :
  try_finally body (call c) ws
  = (result (body ws), final (body ws), calls (body ws) ++ [c]).
Proof.
  unfold try_finally, call, result, final, calls.
  now destruct (body ws) as [[r ws1] calls1].
Qed.

Lemma grouped_try_finally {A} (body : Cmd A) ws :
  cmd_bind (call (Events_setGroup true))
    (fun _ => try_finally body (call (Events_setGroup false))) ws
  = (result (body ws), final (body ws),
     Events_setGroup true :: calls (body ws) ++ [Events_setGroup false]).
Proof.
  unfold cmd_bind.
  change (call (Events_setGroup true) ws) with (Ok tt, ws, [Events_setGroup true]).
  cbv iota beta. now rewrite try_finally_call.
Qed.

Lemma changeTypeOption_callback_run `{Host} block isStatement ws m :
  mutation block = Some m ->
  changeTypeOption_callback block isStatement ws
  = let rewrite newType :=
      cmd_bind (call (Events_setGroup true))
        (fun _ => try_finally (changeReturnType block newType)
                    (call (Events_setGroup false))) ws in
    if isStatement then
      match getProcedureReturnType (proccode m) ws with
      | Ok actual => rewrite (if bool_decide (actual = BOOLEAN) then actual else REPORTER)
      | Throw e => (Throw e, ws, [])
      end
    else rewrite STATEMENT.
Proof.
  intros Hm. unfold changeTypeOption_callback. destruct isStatement.
  - unfold cmd_bind at 1 2 3 4, eval, getWorkspace, cmd_ret, getProcCode.
    rewrite Hm. destruct (getProcedureReturnType (proccode m) ws); [| reflexivity].
    simpl. now destruct (cmd_bind _ _ ws) as [[r ws1] c1].
  - unfold cmd_bind at 1, cmd_ret.
    now destruct (cmd_bind _ _ ws) as [[r ws1] c1].
Qed.

(** X15.  The menu option of [makeChangeTypeOption] always changes the
    shape: a statement-shaped call becomes a boolean when its definition is
    inferred to be one and a reporter otherwise, any other call becomes a
    statement; the label says which way it goes; and a callback that runs to
    its end made exactly one rewrite, inside one event group. *)
Theorem makeChangeTypeOption_flips `{Host} block option ws :
  makeChangeTypeOption block = Ok option ->
  result (callback option ws) = Ok tt ->
  exists current newType m newBlock,
    getReturn block = Ok current /\
    mutation block = Some m /\
    newType <> current /\
    (newType = STATEMENT <-> current <> STATEMENT) /\
    (newType = BOOLEAN <->
     current = STATEMENT /\ getProcedureReturnType (proccode m) ws = Ok BOOLEAN) /\
    text option = (if bool_decide (current = STATEMENT)
                   then Msg_PROCEDURES_TO_REPORTER else Msg_PROCEDURES_TO_STATEMENT) /\
    Xml_domToBlock (patched block m newType) = Ok newBlock /\
    calls (callback option ws)
    = [Events_setGroup true; Block_unplug block; Block_dispose block;
       Block_created newBlock; Block_moveBy newBlock; Events_setGroup false].
Proof.
  unfold makeChangeTypeOption, getReturn.
  destruct (mutation block) as [m|] eqn:Hm; [| discriminate]. simpl.
  intros [= <-]. simpl. set (current := default STATEMENT (return_ m)).
  rewrite (changeTypeOption_callback_run block _ ws m Hm). cbv zeta.
  assert (Hrewrite : forall newType,
    result (cmd_bind (call (Events_setGroup true))
              (fun _ => try_finally (changeReturnType block newType)
                          (call (Events_setGroup false))) ws) = Ok tt ->
    exists newBlock,
      Xml_domToBlock (patched block m newType) = Ok newBlock /\
      calls (cmd_bind (call (Events_setGroup true))
               (fun _ => try_finally (changeReturnType block newType)
                           (call (Events_setGroup false))) ws)
      = [Events_setGroup true; Block_unplug block; Block_dispose block;
         Block_created newBlock; Block_moveBy newBlock; Events_setGroup false]).
  { intros newType. rewrite grouped_try_finally, changeReturnType_run, Hm. simpl.
    destruct (Xml_domToBlock (patched block m newType)) as [newBlock|];
      [| discriminate].
    intros _. now exists newBlock. }
  case_bool_decide as Hcur.
  - destruct (getProcedureReturnType (proccode m) ws) as [actual|] eqn:Hactual;
      [| discriminate].
    set (newType := if bool_decide (actual = BOOLEAN) then actual else REPORTER).
    intros Hok. destruct (Hrewrite newType Hok) as (newBlock & Hdom & Hcalls).
    exists current, newType, m, newBlock.
    assert (Hnew : newType <> STATEMENT /\ (newType = BOOLEAN <-> actual = BOOLEAN)).
    { unfold newType. case_bool_decide as Hb.
      - subst actual. split; [discriminate | tauto].
      - split; [discriminate |]. split; [discriminate | tauto]. }
    destruct Hnew as [Hne Hbool].
    split; [reflexivity |]. split; [reflexivity |]. split; [congruence |].
    split; [tauto |]. split.
    { rewrite Hbool. split.
      - intros ->. split; assumption.
      - intros [_ Hb]. rewrite Hactual in Hb. now injection Hb. }
    split; [now rewrite (bool_decide_eq_true_2 _ Hcur) |].
    split; [exact Hdom | exact Hcalls].
  - intros Hok. destruct (Hrewrite STATEMENT Hok) as (newBlock & Hdom & Hcalls).
    exists current, STATEMENT, m, newBlock.
    split; [reflexivity |]. split; [reflexivity |]. split; [congruence |].
    split; [tauto |]. split; [split; [discriminate | tauto] |].
    split; [now rewrite (bool_decide_eq_false_2 _ Hcur) |].
    split; [exact Hdom | exact Hcalls].
Qed.

Lemma makeChangeTypeOption_flips_witness :
  exists newType newBlock,
    newType <> STATEMENT /\
    @Xml_domToBlock referenceHost
      (patched driftedCall (sampleMutation "foo" None) newType) = Ok newBlock.
Proof.
  destruct (@makeChangeTypeOption_flips referenceHost driftedCall
              {| enabled := true; text := "Change To Reporter";
                 callback := @changeTypeOption_callback referenceHost driftedCall true |}
              driftedWorkspace eq_refl eq_refl)
    as (current & newType & m & newBlock & [= <-] & [= <-] & _ & Hst & _ & _ & Hdom & _).
  exists newType, newBlock. split; [| exact Hdom].
  intros Hs. now apply Hst in Hs.
Defined.

Lemma changeTypeOption_callback_closes_group_witness :
  last (calls (@changeTypeOption_callback refusingHost driftedCall true
                 driftedWorkspace))
  = Some (Events_setGroup false).
Proof.
  apply (@changeTypeOption_callback_closes_group refusingHost).
  left. reflexivity.
Defined.

(** ** More on the reconciliation pass *)

Section PassEdges.
Context `{Host} (cfg : Config).

Lemma forEach_reconcile_skips initialTypes finalTypes blocks ws :
  (forall b, In b blocks -> rewriteTarget cfg initialTypes finalTypes b = None) ->
  final (forEach (reconcile cfg (Some initialTypes) finalTypes) blocks ws) = ws.
Proof.
  induction blocks as [|c rest IH]; intros Hnone; simpl; [reflexivity |].
  destruct (reconcile_skip cfg initialTypes finalTypes c ws
              (Hnone c (or_introl eq_refl))) as [Hfinal _].
  unfold cmd_bind, final in *.
  destruct (reconcile cfg (Some initialTypes) finalTypes c ws) as [[[[]|e] ws1] c1];
    simpl in Hfinal; subst ws1; [| reflexivity].
  assert (IH' := IH (fun b Hb => Hnone b (or_intror Hb))).
  now destruct (forEach _ rest ws) as [[r ws2] c2].
Qed.

Lemma reconcile_no_snapshot finalTypes block ws :
  reconcile cfg None finalTypes block ws = (Ok tt, ws, []) \/
  reconcile cfg None finalTypes block ws = (Throw TypeError, ws, []).
Proof.
  unfold reconcile.
  destruct (negb (bool_decide (type block = PROCEDURES_CALL_BLOCK_TYPE)));
    [now left |].
  destruct (isInsertionMarker_ block); [now left |].
  destruct (bool_decide (is_Some (getNextBlock block))); [now left |].
  unfold cmd_bind, eval, getProcCode.
  destruct (mutation block); now right.
Qed.

Lemma forEach_no_snapshot finalTypes blocks ws :
  forEach (reconcile cfg None finalTypes) blocks ws = (Ok tt, ws, []) \/
  forEach (reconcile cfg None finalTypes) blocks ws = (Throw TypeError, ws, []).
Proof.
  induction blocks as [|c rest IH]; simpl; [now left |].
  unfold cmd_bind.
  destruct (reconcile_no_snapshot finalTypes c ws) as [-> | ->]; [| now right].
  destruct IH as [-> | ->]; [now left | now right].
Qed.

Lemma reconcile_bookkeeping initialTypes finalTypes block ws :
  bookkeeping (final (reconcile cfg initialTypes finalTypes block ws))
  = bookkeeping ws.
Proof.
  unfold reconcile.
  destruct (negb (bool_decide (type block = PROCEDURES_CALL_BLOCK_TYPE)));
    [reflexivity |].
  destruct (isInsertionMarker_ block); [reflexivity |].
  destruct (bool_decide (is_Some (getNextBlock block))); [reflexivity |].
  unfold cmd_bind at 1, eval at 1.
  destruct (getProcCode block) as [procCode|]; [| reflexivity].
  unfold cmd_bind at 1, eval at 1.
  destruct initialTypes as [initial|]; [| reflexivity].
  destruct (initial !! procCode) as [initialType|]; [| reflexivity].
  destruct (finalTypes !! procCode) as [actual|]; [| reflexivity].
  unfold cmd_bind at 1, eval at 1.
  destruct (getReturn block) as [current|]; [| reflexivity].
  destruct (_ && _); [| reflexivity].
  replace (final _) with (final (changeReturnType block actual ws)).
  2:{ unfold final. now destruct (changeReturnType block actual ws) as [[r ws1] c1]. }
  rewrite changeReturnType_run. simpl.
  destruct (mutation block); [| reflexivity].
  now destruct (Xml_domToBlock _).
Qed.

Lemma forEach_reconcile_bookkeeping initialTypes finalTypes blocks ws :
  bookkeeping (final (forEach (reconcile cfg initialTypes finalTypes) blocks ws))
  = bookkeeping ws.
Proof.
  revert ws. induction blocks as [|c rest IH]; intros ws; simpl; [reflexivity |].
  pose proof (reconcile_bookkeeping initialTypes finalTypes c ws) as Hc.
  unfold cmd_bind, final in *.
  destruct (reconcile cfg initialTypes finalTypes c ws) as [[[[]|e] ws1] c1];
    simpl in Hc; [| exact Hc].
  specialize (IH ws1).
  destruct (forEach _ rest ws1) as [[r ws2] c2]. simpl in *. congruence.
Qed.

End PassEdges.

(** X17.  With call shapes open to the user (the default), a pass in which
    no procedure changed its type touches nothing: it opens and closes its
    event group, rewrites no block, asks for no toolbox refresh, and leaves
    the top blocks as they were. *)
Theorem pass_without_type_change `{Host} cfg ws initialTypes finalTypes :
  USER_CAN_CHANGE_CALL_TYPE cfg = true ->
  initialProcedureReturnTypes_ ws = Some initialTypes ->
  getAllProcedureReturnTypes ws = Ok finalTypes ->
  ~ typeChanged initialTypes finalTypes ->
  let run := processProcedureReturnsChanged_ cfg ws in
  result run = Ok tt ->
  calls run = [Events_setGroup true; Events_setGroup false] /\
  topBlocks_ (final run) = topBlocks_ ws.
Proof.
  intros Huser Hinit Hfin Hsame run Hok.
  assert (Hnone : forall b, rewriteTarget cfg initialTypes finalTypes b = None).
  { intros b.
    destruct (rewriteTarget cfg initialTypes finalTypes b) as [actual|] eqn:Ht;
      [| reflexivity].
    apply rewriteTarget_mustRewrite in Ht.
    destruct Ht as (_ & _ & _ & p & i & c & _ & Hi & Hf & _ & _ & [Hu | Hne]).
    - congruence.
    - exfalso. apply Hsame. exists p, i, actual. auto. }
  destruct (processProcedureReturnsChanged__run cfg _ _ ws Hinit Hfin Hok)
    as (Hloop & Hfinal & outdated & Hiff & Hcalls).
  destruct (forEach_reconcile_calls cfg _ _ _ _ Hloop) as [Hlog _].
  assert (Hquiet : forall l,
    flat_map (rewriteCalls cfg initialTypes finalTypes) l = []).
  { induction l as [|b rest IH]; simpl; [reflexivity |].
    unfold rewriteCalls at 1. now rewrite Hnone. }
  unfold run. rewrite Hcalls, Hfinal, Hlog, Hquiet. split.
  - destruct outdated; [| reflexivity]. exfalso. now apply Hsame, Hiff.
  - now rewrite forEach_reconcile_skips.
Qed.

Lemma pass_without_type_change_witness :
  let run := @processProcedureReturnsChanged_ referenceHost defaultConfig
               userShapedWorkspace in
  calls run = [Events_setGroup true; Events_setGroup false] /\
  topBlocks_ (final run) = topBlocks_ userShapedWorkspace.
Proof.
  apply (@pass_without_type_change referenceHost defaultConfig userShapedWorkspace
           {["foo" := REPORTER]} {["foo" := REPORTER]} eq_refl eq_refl eq_refl);
    [| reflexivity].
  intros (p & i & f & Hi & Hf & Hne).
  destruct (decide (p = "foo")) as [-> | Hp].
  - rewrite lookup_singleton_eq in Hi, Hf. congruence.
  - now rewrite lookup_singleton_ne in Hi.
Defined.

(** X18.  Without an initial snapshot the pass cannot finish once the
    workspace defines a procedure: it ends with a type error, and no block
    was rewritten. *)
Theorem pass_missing_snapshot `{Host} cfg ws finalTypes :
  initialProcedureReturnTypes_ ws = None ->
  getAllProcedureReturnTypes ws = Ok finalTypes ->
  finalTypes <> ∅ ->
  let run := processProcedureReturnsChanged_ cfg ws in
  result run = Throw TypeError /\
  topBlocks_ (final run) = topBlocks_ ws /\
  forall c, In c (calls run) -> exists state, c = Events_setGroup state.
Proof.
  intros Hinit Hfin Hne run. subst run.
  unfold processProcedureReturnsChanged_, cmd_bind, getWorkspace, eval,
    setWorkspace, call, cmd_ret. rewrite Hinit, Hfin. fold (passStarted ws).
  destruct (forEach_no_snapshot cfg finalTypes (getTopBlocks ws) (passStarted ws))
    as [-> | ->].
  - destruct (map_to_list finalTypes) as [|[p f] rest] eqn:Hlist.
    + now apply map_to_list_empty_iff in Hlist.
    + simpl. split; [reflexivity |]. split; [reflexivity |].
      intros c [<- | [<- | []]]; eauto.
  - simpl. split; [reflexivity |]. split; [reflexivity |].
    intros c [<- | []]; eauto.
Qed.

Lemma pass_missing_snapshot_witness :
  result (@processProcedureReturnsChanged_ referenceHost defaultConfig
            (workspaceOf [definitionBlock "d" "foo" None] None))
  = Throw TypeError.
Proof.
  apply (@pass_missing_snapshot referenceHost defaultConfig
           (workspaceOf [definitionBlock "d" "foo" None] None)
           {["foo" := STATEMENT]} eq_refl eq_refl).
  intros Hempty. apply (f_equal (fun m => m !! "foo")) in Hempty.
  rewrite lookup_singleton_eq, lookup_empty in Hempty. discriminate.
Defined.

(** X19.  Once the final snapshot is computed, the pass uses up its
    bookkeeping whatever happens next: afterwards the initial snapshot is
    gone, the flag for a check after the gesture is down and no timeout is
    pending, and whether returns are enabled is as before. *)
Theorem pass_consumes_snapshot `{Host} cfg ws finalTypes :
  getAllProcedureReturnTypes ws = Ok finalTypes ->
  bookkeeping (final (processProcedureReturnsChanged_ cfg ws))
  = (procedureReturnsEnabled ws, None, false, None).
Proof.
  intros Hfin. unfold processProcedureReturnsChanged_.
  unfold cmd_bind at 1, getWorkspace.
  unfold cmd_bind at 1, eval at 1. rewrite Hfin.
  unfold cmd_bind at 1, setWorkspace. unfold cmd_bind at 1, call at 1.
  unfold cmd_bind at 1. fold (passStarted ws).
  pose proof (forEach_reconcile_bookkeeping cfg (initialProcedureReturnTypes_ ws)
                finalTypes (getTopBlocks ws) (passStarted ws)) as Hloop.
  unfold final in Hloop.
  destruct (forEach _ (getTopBlocks ws) (passStarted ws)) as [[[[]|e] ws1] c1];
    simpl in Hloop; [| exact Hloop].
  unfold cmd_bind at 1, call at 1. unfold cmd_bind at 1, eval.
  destruct (toolboxOutdated_loop _ _) as [[|]|e]; exact Hloop.
Qed.

Lemma pass_consumes_snapshot_witness :
  initialProcedureReturnTypes_
    (final (@processProcedureReturnsChanged_ referenceHost defaultConfig
              driftedWorkspace))
  = None.
Proof.
  pose proof (@pass_consumes_snapshot referenceHost defaultConfig driftedWorkspace
                {["foo" := REPORTER]} eq_refl) as Hbook.
  unfold bookkeeping in Hbook. congruence.
Defined.

(** ** More on return type inference *)

(** X20.  A node that is no return statement and does not directly follow
    one has no part in the classification: taking it out of the traversal
    changes nothing. *)
Theorem getBlockReturnType_loop_ignores seen before x after :
  ~ isReturn x ->
  (forall d, last before = Some d -> ~ isReturn d) ->
  getBlockReturnType_loop seen (before ++ x :: after)
  = getBlockReturnType_loop seen (before ++ after).
Proof.
  intros Hx. revert seen.
  induction before as [|d rest IH]; intros seen Hlast; simpl.
  - now rewrite (bool_decide_eq_false_2 _ Hx).
  - assert (Hrest : rest <> [] -> forall d', last rest = Some d' -> ~ isReturn d').
    { intros Hne d' Hd'. apply Hlast. destruct rest; [contradiction | exact Hd']. }
    case_bool_decide as Hd.
    + destruct rest as [|next rest'].
      * exfalso. now apply (Hlast d).
      * simpl. case_bool_decide; [| reflexivity].
        apply (IH true). now apply Hrest.
    + destruct rest as [|next rest'].
      * simpl. now rewrite (bool_decide_eq_false_2 _ Hx).
      * apply (IH seen). now apply Hrest.
Qed.

Lemma getBlockReturnType_loop_ignores_witness :
  getBlockReturnType_loop false
    [plainBlock "m" "motion_movesteps" []; trueLiteral "t";
     returnBlock "r" (literal "42"); literal "42"]
  = getBlockReturnType_loop false
      [plainBlock "m" "motion_movesteps" [];
       returnBlock "r" (literal "42"); literal "42"].
Proof.
  apply (getBlockReturnType_loop_ignores false
           [plainBlock "m" "motion_movesteps" []] (trueLiteral "t")
           [returnBlock "r" (literal "42"); literal "42"]).
  - discriminate.
  - intros d [= <-]. discriminate.
Defined.

(** ** The toolbox category and names *)

(** X21.  Building the toolbox category changes nothing in the workspace;
    the one thing it does to the host is to register the callback of the
    "create" button, also when it ends with an exception. *)
Theorem flyoutCategory_changes_nothing `{Host} cfg ws :
  final (flyoutCategory cfg ws) = ws /\
  calls (flyoutCategory cfg ws) = [registerButtonCallback "CREATE_PROCEDURE"].
Proof.
  unfold flyoutCategory, cmd_bind, getWorkspace, addCreateButton_, call, cmd_ret,
    eval, final, calls.
  simpl. destruct (flyout_calls ws _); [| now split].
  now destruct (if DEFAULT_ENABLE_RETURNS cfg then _ else _).
Qed.

(** X22.  Outside a flyout, whatever [findLegalName] returns is a name that
    a definition other than the block itself carries. *)
Theorem findLegalName_returns_collision `{Host} fuel name block ws legalName :
  isInFlyout block = false ->
  findLegalName fuel name block ws = Some legalName ->
  collides legalName ws (Some block).
Proof.
  intros Hfly. unfold findLegalName. rewrite Hfly. intros Hloop.
  apply isLegalName__collides. now apply (findLegalName_loop_passes fuel name).
Qed.

Lemma findLegalName_returns_collision_witness :
  let block := classicDefinition "a" "foo" in
  @collides referenceHost "bar2"
    (workspaceOf [block; classicDefinition "b" "BAR2"] None) (Some block).
Proof.
  intros block.
  exact (@findLegalName_returns_collision referenceHost 3 "bar" block
           (workspaceOf [block; classicDefinition "b" "BAR2"] None) "bar2"
           eq_refl eq_refl).
Defined.

(** ** Mutating callers and prototype *)

Lemma getPrototypeBlock_input procCode workspace d :
  getDefineBlock procCode workspace = Ok (Some d) ->
  exists prototypeBlock,
    getPrototypeBlock procCode workspace = Ok (Some prototypeBlock) /\
    inputTargetBlock "custom_block" d = Some prototypeBlock.
Proof.
  intros Hdef. unfold getPrototypeBlock. rewrite Hdef. simpl.
  apply getDefineBlock_loop_first in Hdef.
  destruct Hdef as (_ & _ & _ & (_ & proto & m & Hproto & _) & _).
  exists proto. now rewrite Hproto.
Qed.

Lemma domToMutationCalls_app l1 l2 :
  domToMutationCalls (l1 ++ l2) = domToMutationCalls l1 ++ domToMutationCalls l2.
Proof. apply omap_app. Qed.

Lemma mutateCaller_Ok `{Host} mutation_ caller ws :
  result (mutateCaller mutation_ caller ws) = Ok tt ->
  exists old,
    mutation caller = Some old /\
    domToMutationCalls (calls (mutateCaller mutation_ caller ws))
    = [(caller, keepingReturn mutation_ old)].
Proof.
  unfold mutateCaller, cmd_bind, eval, call, getWorkspace, setWorkspace, cmd_ret,
    result, calls.
  destruct (mutation caller) as [old|]; simpl; [| discriminate].
  fold (keepingReturn mutation_ old).
  destruct (domToMutation caller _) as [newMutation|e]; simpl; [| discriminate].
  intros _. exists old. split; [reflexivity |]. now case_bool_decide.
Qed.

Lemma forEach_mutateCaller `{Host} mutation_ callers ws :
  result (forEach (mutateCaller mutation_) callers ws) = Ok tt ->
  Forall2 (fun caller c =>
             exists old,
               mutation caller = Some old /\ c = (caller, keepingReturn mutation_ old))
    callers
    (domToMutationCalls (calls (forEach (mutateCaller mutation_) callers ws))).
Proof.
  revert ws. induction callers as [|caller rest IH]; intros ws; simpl.
  - constructor.
  - intros Hres. apply cmd_bind_Ok in Hres as ([] & Hcaller & Hrest & Hcalls & _).
    rewrite Hcalls, domToMutationCalls_app.
    destruct (mutateCaller_Ok _ _ _ Hcaller) as (old & Hold & ->).
    simpl. constructor; [eauto |]. now apply IH.
Qed.

(** X23.  When no definition of the name is found, nothing is mutated: the
    only thing [mutateCallersAndPrototype] does is to alert the user. *)
Theorem mutateCallersAndPrototype_without_definition `{Host} name mutation_ ws :
  getDefineBlock name ws = Ok None ->
  mutateCallersAndPrototype name mutation_ ws
  = (Ok tt, ws, [alert "No define block on workspace"]).
Proof.
  intros Hdef.
  unfold mutateCallersAndPrototype, getPrototypeBlock, cmd_bind, getWorkspace, eval,
    call.
  now rewrite Hdef.
Qed.

Lemma mutateCallersAndPrototype_without_definition_witness :
  @mutateCallersAndPrototype referenceHost "baz" (sampleMutation "baz %s" None)
    reporterCallWorkspace
  = (Ok tt, reporterCallWorkspace, [alert "No define block on workspace"]).
Proof.
  exact (@mutateCallersAndPrototype_without_definition referenceHost "baz"
           (sampleMutation "baz %s" None) reporterCallWorkspace eq_refl).
Defined.

(** X24.  A run of [mutateCallersAndPrototype] that reaches its end hands an
    element to every caller of the name, recursive calls included, in the
    order [getCallers] lists them, and to the prototype last.  Each of them
    gets the new mutation with its [return] attribute set to the text of what
    its own old [return] attribute reads as: the text of its call type, or
    the text "null" when it had no such attribute.  All of it happens inside
    one event group. *)
Theorem mutateCallersAndPrototype_hands_return_text `{Host} name mutation_ ws
    defineBlock :
  getDefineBlock name ws = Ok (Some defineBlock) ->
  let run := mutateCallersAndPrototype name mutation_ ws in
  result run = Ok tt ->
  exists callers prototypeBlock,
    getCallers name ws defineBlock true = Ok callers /\
    inputTargetBlock "custom_block" defineBlock = Some prototypeBlock /\
    Forall2 (fun caller c =>
               exists old,
                 mutation caller = Some old /\
                 c = (caller, keepingReturn mutation_ old) /\
                 element_return (snd c) = match return_ old with
                                          | Some t => typeText t
                                          | None => nullText
                                          end)
      (callers ++ [prototypeBlock]) (domToMutationCalls (calls run)) /\
    head (calls run) = Some (Events_setGroup true) /\
    last (calls run) = Some (Events_setGroup false).
Proof.
  intros Hdef run. subst run.
  destruct (getPrototypeBlock_input _ _ _ Hdef) as (proto & Hproto & Htarget).
  unfold mutateCallersAndPrototype, cmd_bind, getWorkspace, eval, call.
  rewrite Hdef, Hproto.
  destruct (getCallers name ws defineBlock true) as [callers|e]; simpl;
    [| discriminate].
  pose proof (forEach_mutateCaller mutation_ (callers ++ [proto]) ws) as Hloop.
  unfold result, calls in Hloop.
  destruct (forEach _ (callers ++ [proto]) ws) as [[[[]|e] ws1] calls1]; simpl in *;
    [| discriminate].
  intros _. exists callers, proto. split; [reflexivity |].
  split; [exact Htarget |]. split; [| split].
  - change (Events_setGroup true :: calls1 ++ [Events_setGroup false])
      with ([Events_setGroup true] ++ calls1 ++ [Events_setGroup false]).
    rewrite !domToMutationCalls_app. simpl. rewrite app_nil_r.
    eapply Forall2_impl; [now apply Hloop |].
    intros caller c (old & Hold & ->). exists old. auto.
  - reflexivity.
  - rewrite app_comm_cons. apply last_snoc.
Qed.

Lemma mutateCallersAndPrototype_hands_return_text_witness :
  let mutation_ := sampleMutation "foo %s" (Some BOOLEAN) in
  let run := @mutateCallersAndPrototype referenceHost "foo" mutation_
               reporterCallWorkspace in
  domToMutationCalls (calls run)
  = [(reporterCall, sampleElement "foo %s" (typeText REPORTER));
     (prototypeBlock "d-proto" "foo", sampleElement "foo %s" nullText)].
Proof.
  intros mutation_ run.
  destruct (@mutateCallersAndPrototype_hands_return_text referenceHost "foo"
              mutation_ reporterCallWorkspace _ eq_refl eq_refl)
    as (callers & proto & Hcallers & Hproto & Hall & _).
  injection Hcallers as <-. injection Hproto as <-.
  fold run in Hall. simpl app in Hall.
  inversion Hall as [|caller1 c1 rest1 l1 (old1 & Hold1 & -> & _) Hrest]; subst.
  inversion Hrest as [|caller2 c2 rest2 l2 (old2 & Hold2 & -> & _) Hnil]; subst.
  inversion Hnil; subst.
  injection Hold1 as <-. injection Hold2 as <-. reflexivity.
Defined.
